(** * byov-tts-server: the request pipeline of [app.py]

    A shallow embedding of the two request handlers of [app.py]
    ([list_voices] and [generate_speech]) together with the parts of the
    Python runtime they stand on: [str] as a sequence of code points,
    [pathlib]'s pure path algebra, a directory tree for the files the
    handlers look at, the numpy generator, the temporary-file store and
    the calls into the F5-TTS library.

    The handlers are effectful.  They run in a state monad over [World]
    whose results are either a value or a raised exception; the world is
    kept when an exception is raised, as in Python.

    The file system is the one of Linux as Python 3.11 sees it: a name
    longer than [NAME_MAX] or a path longer than [PATH_MAX] makes
    [os.stat] fail with ENAMETOOLONG, which [Path.exists] and
    [Path.is_dir] raise again.

    Outside the model: symbolic links and permissions in the directory
    tree; objects raised that are no instances of [Exception]; and what
    the web framework does with a response once the handler has returned
    it, except for the call of its background callback. *)

From Stdlib Require Import ZArith NArith List Bool String Ascii Lia.
From Stdlib Require Import Floats.SpecFloat.
Import ListNotations.

Local Open Scope Z_scope.
Set Warnings "-register-all".

(** ** Python strings *)

Module PyStr.

(** A [str] is a sequence of Unicode code points. *)
Definition char := N.
Definition pystr := list char.

Definition of_ascii (c : ascii) : char := N_of_ascii c.

(** [lit] reads an ASCII literal of the source as a [str]. *)
Fixpoint lit (s : string) : pystr :=
  match s with
  | EmptyString => []
  | String c r => of_ascii c :: lit r
  end.

Definition char_eqb (a b : char) : bool := N.eqb a b.

Fixpoint eqb (s t : pystr) : bool :=
  match s, t with
  | [], [] => true
  | a :: s', b :: t' => char_eqb a b && eqb s' t'
  | _, _ => false
  end.

(** Truthiness of a [str]: [not s] holds of the empty string only. *)
Definition is_empty (s : pystr) : bool :=
  match s with [] => true | _ :: _ => false end.

Definition len (s : pystr) : Z := Z.of_nat (List.length s).

(** [str.isspace] on one code point: the characters [str.strip()] removes
    when called without an argument. *)
Definition is_space (c : char) : bool :=
  (((9 <=? c) && (c <=? 13))
   || ((28 <=? c) && (c <=? 32))
   || (c =? 133) || (c =? 160) || (c =? 5760)
   || ((8192 <=? c) && (c <=? 8202))
   || (c =? 8232) || (c =? 8233) || (c =? 8239) || (c =? 8287)
   || (c =? 12288))%N.

Fixpoint lstrip (s : pystr) : pystr :=
  match s with
  | [] => []
  | c :: r => if is_space c then lstrip r else s
  end.

Definition rstrip (s : pystr) : pystr := rev (lstrip (rev s)).

(** [s.strip()] *)
Definition strip (s : pystr) : pystr := rstrip (lstrip s).

(** [s.endswith(suffix)] *)
Definition endswith (s suffix : pystr) : bool :=
  let n := List.length s in
  let k := List.length suffix in
  (k <=? n)%nat && eqb (skipn (n - k) s) suffix.

(** [s.rfind(c)] for a single character: the highest index holding [c],
    or -1. *)
Fixpoint rfind_from (i : Z) (c : char) (s : pystr) : Z :=
  match s with
  | [] => -1
  | a :: r =>
      let j := rfind_from (i + 1) c r in
      if 0 <=? j then j else if char_eqb a c then i else -1
  end.

Definition rfind (s : pystr) (c : char) : Z := rfind_from 0 c s.

(** [s[:i]] for [0 <= i]. *)
Definition slice_to (s : pystr) (i : Z) : pystr := firstn (Z.to_nat i) s.

(** [s.split(sep)] for a single separator character. *)
Fixpoint split (sep : char) (s : pystr) : list pystr :=
  match s with
  | [] => [[]]
  | a :: r =>
      if char_eqb a sep then [] :: split sep r
      else match split sep r with
           | [] => [[a]]
           | w :: ws => (a :: w) :: ws
           end
  end.

End PyStr.

Import PyStr.

(** ** pathlib *)

Module Pathlib.

Definition slash : char := 47%N.
Definition dot : char := 46%N.

(** A pure POSIX path after parsing: whether it is anchored at [/],
    whether the anchor is the [//] that exactly two leading slashes give,
    and its components. *)
Record PurePath := mkPath {
  absolute : bool;
  two_slashes : bool;
  parts : list pystr
}.

Definition starts_with_slash (s : pystr) : bool :=
  match s with
  | c :: _ => char_eqb c slash
  | [] => false
  end.

(** A component survives parsing when it is neither empty nor [.]. *)
Definition keeps (x : pystr) : bool :=
  negb (is_empty x) && negb (PyStr.eqb x [dot]).

Fixpoint leading_slashes (s : pystr) : nat :=
  match s with
  | c :: r => if char_eqb c slash then S (leading_slashes r) else 0
  | [] => 0
  end.

(** [Path(s)] *)
Definition Path (s : pystr) : PurePath :=
  mkPath (starts_with_slash s) (Nat.eqb (leading_slashes s) 2)
         (filter keeps (split slash s)).

(** [p / s]: an absolute right operand replaces the left one. *)
Definition joinpath (p : PurePath) (s : pystr) : PurePath :=
  let q := Path s in
  if absolute q then q
  else mkPath (absolute p) (two_slashes p) (parts p ++ parts q).

(** The path of a directory entry, as [iterdir] and [glob] build it: the
    entry's name is appended unparsed. *)
Definition child (p : PurePath) (entry : pystr) : PurePath :=
  mkPath (absolute p) (two_slashes p) (parts p ++ [entry]).

(** [p.name] *)
Definition name (p : PurePath) : pystr := last (parts p) [].

(** [p.stem]: the name without its last suffix; a leading or a trailing
    dot starts no suffix. *)
Definition stem (p : PurePath) : pystr :=
  let n := name p in
  let i := rfind n dot in
  if (0 <? i) && (i <? len n - 1) then slice_to n i else n.

Fixpoint join_with (sep : char) (l : list pystr) : pystr :=
  match l with
  | [] => []
  | [x] => x
  | x :: r => x ++ sep :: join_with sep r
  end.

(** [str(p)] *)
Definition str (p : PurePath) : pystr :=
  if absolute p then
    (if two_slashes p then [slash; slash] else [slash])
      ++ join_with slash (parts p)
  else match parts p with
       | [] => [dot]
       | l => join_with slash l
       end.

End Pathlib.

Import Pathlib.

(** ** The directory tree *)

Module FS.

(** What [open(..., 'r', encoding='utf-8').read()] finds in a file: text,
    or bytes that are not UTF-8 (with the decoder's complaint). *)
Inductive content :=
  | Text (s : pystr)
  | Undecodable (why : pystr).

Inductive node :=
  | File (c : content)
  | Dir (entries : list (pystr * node)).

Fixpoint lookup (n : pystr) (entries : list (pystr * node)) : option node :=
  match entries with
  | [] => None
  | (m, x) :: r => if PyStr.eqb m n then Some x else lookup n r
  end.

Definition dotdot : pystr := [dot; dot].

(** The result of a call: a value, or an exception (an instance of
    [Exception]) of which the handlers only ever use [str(e)]. *)
Inductive outcome (A : Type) :=
  | Returns (a : A)
  | Raises (message : pystr).
Arguments Returns {A} a.
Arguments Raises {A} message.

(** The limits of the operating system, in bytes: on one file name, and
    on a whole path with its terminator. *)
Definition NAME_MAX : Z := 255.
Definition PATH_MAX : Z := 4096.

(** [os.fsencode]: a code point takes one to four bytes in UTF-8; the
    surrogates U+DC80 to U+DCFF stand for one raw byte each, the other
    surrogates cannot be encoded; and a path holds no NUL. *)
Definition raw_byte (c : char) : bool := ((56448 <=? c) && (c <=? 56575))%N.
Definition surrogate (c : char) : bool := ((55296 <=? c) && (c <=? 57343))%N.

Definition utf8_len (c : char) : Z :=
  if (c <? 128)%N then 1
  else if (c <? 2048)%N then 2
  else if raw_byte c then 1
  else if (c <? 65536)%N then 3
  else 4.

Fixpoint byte_len (s : pystr) : Z :=
  match s with
  | [] => 0
  | c :: r => utf8_len c + byte_len r
  end.

Definition encodable_char (c : char) : bool :=
  negb (c =? 0)%N && (negb (surrogate c) || raw_byte c).

Definition encodable (s : pystr) : bool := forallb encodable_char s.

(** How [os.stat] ends: with the node; with ENOENT or ENOTDIR; with
    ENAMETOOLONG; or, before the system is asked, with a [ValueError]
    for a path that has no encoding. *)
Inductive stat_result :=
  | Found (n : node)
  | Missing
  | NameTooLong
  | BadPath.

(** Name resolution from [cur], whose ancestors are [stack] (nearest
    first).  A component under a file does not resolve; a component
    looked up in a directory must fit in [NAME_MAX]; [..] at the top
    stays at the top. *)
Fixpoint walk (stack : list node) (cur : node) (comps : list pystr)
  : stat_result :=
  match comps with
  | [] => Found cur
  | c :: rest =>
      match cur with
      | File _ => Missing
      | Dir es =>
          if NAME_MAX <? byte_len c then NameTooLong
          else if PyStr.eqb c dotdot then
            match stack with
            | [] => walk [] cur rest
            | parent :: st => walk st parent rest
            end
          else
            match lookup c es with
            | Some n => walk (cur :: stack) n rest
            | None => Missing
            end
      end
  end.

(** The files of the machine: the tree under [/] and the working
    directory of the server process. *)
Record t := mkFS { root : node; cwd : list pystr }.

(** [os.stat(p)] *)
Definition stat (fs : t) (p : PurePath) : stat_result :=
  if negb (encodable (str p)) then BadPath
  else if PATH_MAX <=? byte_len (str p) then NameTooLong
  else if absolute p then walk [] (root fs) (parts p)
  else walk [] (root fs) (cwd fs ++ parts p).

(** The node [os.stat] finds at [p], if it finds one. *)
Definition resolve (fs : t) (p : PurePath) : option node :=
  match stat fs p with Found n => Some n | _ => None end.

Definition quoted (p : PurePath) : pystr :=
  lit "'" ++ str p ++ lit "'".

Definition name_too_long (p : PurePath) : pystr :=
  lit "[Errno 36] File name too long: " ++ quoted p.

(** [p.exists()]: [False] for ENOENT, ENOTDIR and [ValueError]; any other
    error of [os.stat] is raised again. *)
Definition exists_ (fs : t) (p : PurePath) : outcome bool :=
  match stat fs p with
  | Found _ => Returns true
  | Missing => Returns false
  | BadPath => Returns false
  | NameTooLong => Raises (name_too_long p)
  end.

(** [p.is_dir()], with the same treatment of errors. *)
Definition is_dir (fs : t) (p : PurePath) : outcome bool :=
  match stat fs p with
  | Found (Dir _) => Returns true
  | Found (File _) => Returns false
  | Missing => Returns false
  | BadPath => Returns false
  | NameTooLong => Raises (name_too_long p)
  end.

(** [p.iterdir()], consumed by a [for] loop. *)
Definition iterdir (fs : t) (p : PurePath) : outcome (list PurePath) :=
  match stat fs p with
  | Found (Dir es) => Returns (map (fun e => child p (fst e)) es)
  | Found (File _) =>
      Raises (lit "[Errno 20] Not a directory: " ++ quoted p)
  | Missing =>
      Raises (lit "[Errno 2] No such file or directory: " ++ quoted p)
  | NameTooLong => Raises (name_too_long p)
  | BadPath => Raises (lit "embedded null byte")
  end.

(** [p.glob("*" + suffix)], consumed by a [for] loop: the entries of the
    directory whose name ends with [suffix], hidden ones included;
    nothing when [p] is no directory. *)
Definition glob_suffix (fs : t) (p : PurePath) (suffix : pystr)
  : outcome (list PurePath) :=
  match stat fs p with
  | Found (Dir es) =>
      Returns (map (fun e => child p (fst e))
                   (filter (fun e => endswith (fst e) suffix) es))
  | NameTooLong => Raises (name_too_long p)
  | _ => Returns []
  end.

(** [open(p, 'r', encoding='utf-8')] followed by [f.read()]. *)
Definition read_text (fs : t) (p : PurePath) : outcome pystr :=
  match stat fs p with
  | Found (File (Text s)) => Returns s
  | Found (File (Undecodable why)) => Raises why
  | Found (Dir _) => Raises (lit "[Errno 21] Is a directory: " ++ quoted p)
  | Missing => Raises (lit "[Errno 2] No such file or directory: " ++ quoted p)
  | NameTooLong => Raises (name_too_long p)
  | BadPath => Raises (lit "embedded null byte")
  end.

End FS.

Import FS.

(** ** The world of a request *)

(** numpy's global generator: the raw values it will produce, and how
    many were consumed. *)
Record RandomState := mkRandomState { raw : nat -> Z; consumed : nat }.

Definition tmp_path := N.

(** The calls that leave the handler, in the order they are made. *)
Inductive Call :=
  | np_random_randint_call (low high : Z)
  | torch_manual_seed_call (seed : Z)
  | preprocess_ref_audio_text_call (ref_audio ref_text : pystr)
  | infer_process_call (ref_audio ref_text gen_text : pystr)
  | NamedTemporaryFile_call
  | sf_write_call (file : tmp_path)
  | os_unlink_call (file : tmp_path).

Record World := mkWorld {
  files : FS.t;
  np_random : RandomState;
  torch_seed : Z;
  tmp_files : list tmp_path;
  calls : list Call
}.

Definition with_np_random (r : RandomState) (w : World) : World :=
  mkWorld (files w) r (torch_seed w) (tmp_files w) (calls w).
Definition with_torch_seed (s : Z) (w : World) : World :=
  mkWorld (files w) (np_random w) s (tmp_files w) (calls w).
Definition with_tmp_files (l : list tmp_path) (w : World) : World :=
  mkWorld (files w) (np_random w) (torch_seed w) l (calls w).
Definition log (c : Call) (w : World) : World :=
  mkWorld (files w) (np_random w) (torch_seed w) (tmp_files w) (calls w ++ [c]).

(** ** A state monad with exceptions *)

Definition M (A : Type) : Type := World -> outcome A * World.

Definition ret {A} (a : A) : M A := fun w => (Returns a, w).
Definition raise {A} (message : pystr) : M A := fun w => (Raises message, w).
Definition bind {A B} (m : M A) (k : A -> M B) : M B :=
  fun w =>
    match m w with
    | (Returns a, w') => k a w'
    | (Raises e, w') => (Raises e, w')
    end.
Definition modify (f : World -> World) : M unit :=
  fun w => (Returns tt, f w).

Declare Scope monad_scope.
Delimit Scope monad_scope with M.
Notation "x <- m ;; k" := (bind m (fun x => k))
  (at level 61, m at next level, right associativity) : monad_scope.
Notation "m ;; k" := (bind m (fun _ => k))
  (at level 61, right associativity) : monad_scope.
Local Open Scope monad_scope.

(** ** The libraries the handlers call *)

(** [np.random.randint(low, high)] draws from the half-open interval
    from [low] up to but not including [high]; the raw value of the
    generator decides which. *)
Definition np_random_randint (low high : Z) : M Z :=
  fun w =>
    if high <=? low then (Raises (lit "low >= high"), w)
    else
      let rs := np_random w in
      let v := low + raw rs (consumed rs) mod (high - low) in
      (Returns v,
       log (np_random_randint_call low high)
           (with_np_random (mkRandomState (raw rs) (S (consumed rs))) w)).

(** [torch.manual_seed(seed)] *)
Definition torch_manual_seed (seed : Z) : M unit :=
  modify (fun w => log (torch_manual_seed_call seed) (with_torch_seed seed w)).

Definition ndarray := list Z.

(** What the F5-TTS library, [tempfile] and [soundfile] answer.  Inference
    reads torch's seed; every call may raise. *)
Record Environment := mkEnvironment {
  preprocess_ref_audio_text : pystr -> pystr -> outcome (pystr * pystr);
  infer_process :
    Z -> pystr -> pystr -> pystr ->
    option spec_float -> option Z -> option spec_float ->
    outcome (ndarray * Z * ndarray);
  NamedTemporaryFile_error : option pystr;
  sf_write : ndarray -> Z -> outcome unit
}.

Definition fresh_tmp (l : list tmp_path) : tmp_path :=
  N.succ (fold_right N.max 0%N l).

(** [tempfile.NamedTemporaryFile(suffix=".wav", delete=False)]: a new file
    under a name no other temporary file has; closing it deletes
    nothing. *)
Definition NamedTemporaryFile (lib : Environment) : M tmp_path :=
  fun w =>
    match NamedTemporaryFile_error lib with
    | Some e => (Raises e, log NamedTemporaryFile_call w)
    | None =>
        let f := fresh_tmp (tmp_files w) in
        (Returns f,
         log NamedTemporaryFile_call (with_tmp_files (tmp_files w ++ [f]) w))
    end.

Definition tmp_eqb (a b : tmp_path) : bool := N.eqb a b.

(** [os.unlink(file)] *)
Definition os_unlink (file : tmp_path) : M unit :=
  fun w =>
    if existsb (tmp_eqb file) (tmp_files w) then
      (Returns tt,
       log (os_unlink_call file)
           (with_tmp_files
              (filter (fun g => negb (tmp_eqb file g)) (tmp_files w)) w))
    else
      (Raises (lit "[Errno 2] No such file or directory"),
       log (os_unlink_call file) w).

(** ** Request and response models *)

(** [class GenerateRequest(BaseModel)] after parsing: an [Optional] field
    holds [None] when the body sets it to [null]. *)
Record GenerateRequest := mkGenerateRequest {
  voice_id : pystr;
  text : pystr;
  variation : option pystr;
  speed : option spec_float;
  nfe_step : option Z;
  cross_fade_duration : option spec_float;
  seed : option Z;
  remove_silence : option bool
}.

Definition float_1_0 : spec_float := S754_finite false 4503599627370496 (-52).
Definition float_0_15 : spec_float := S754_finite false 5404319552844595 (-55).

(** A body that gives only the two required fields. *)
Definition GenerateRequest_defaults (voice_id text : pystr) : GenerateRequest :=
  mkGenerateRequest voice_id text None (Some float_1_0) (Some 32)
                    (Some float_0_15) (Some (-1)) (Some false).

(** The deferred cleanup, [lambda: os.unlink(output_path)]. *)
Inductive Callback :=
  | unlink_later (output_path : tmp_path).

Record FileResponse := mkFileResponse {
  path : tmp_path;
  media_type : pystr;
  filename : pystr;
  background : option Callback
}.

Record VoiceEntry := mkVoiceEntry {
  entry_voice_id : pystr;
  entry_variations : list pystr
}.

(** How a handler ends: it returns a body (status 200), raises
    [HTTPException] (answered with that status and [{"detail": ...}]), or
    lets another exception through. *)
Inductive reply (A : Type) :=
  | Response (body : A)
  | HTTPException (status_code : Z) (detail : pystr)
  | Unhandled (message : pystr).
Arguments Response {A} body.
Arguments HTTPException {A} status_code detail.
Arguments Unhandled {A} message.

(** Truthiness of a list: [if l:] holds of the non-empty ones. *)
Definition truthy {A} (l : list A) : bool :=
  match l with [] => false | _ :: _ => true end.

(** [a or b] on strings, where [a] may be [None]. *)
Definition or_str (a : option pystr) (b : pystr) : pystr :=
  match a with
  | Some s => if is_empty s then b else s
  | None => b
  end.

(** Calling the response's [background]. *)
Definition run_background (r : FileResponse) : M unit :=
  match background r with
  | Some (unlink_later output_path) => os_unlink output_path
  | None => ret tt
  end.

(** ** The handlers *)

Section App.

Variable VOICES_DIR : pystr.
Variable lib : Environment.

(** The inner loop of [list_voices] (lines 89-97); an exception ends
    it. *)
Definition variations_in (fs : FS.t) (voice_dir : PurePath)
  : outcome (list pystr) :=
  match glob_suffix fs voice_dir (lit ".wav") with
  | Raises e => Raises e
  | Returns wav_files =>
      fold_left
        (fun acc wav_file =>
           match acc with
           | Raises e => Raises e
           | Returns variations =>
               let variation_name := stem wav_file in
               let txt_file :=
                 joinpath voice_dir (variation_name ++ lit ".txt") in
               match exists_ fs txt_file with
               | Raises e => Raises e
               | Returns true => Returns (variations ++ [variation_name])
               | Returns false => Returns variations
               end
           end)
        wav_files (Returns [])
  end.

(** The outer loop of [list_voices] (lines 86-103). *)
Definition scan_voices (fs : FS.t) (dirs : list PurePath)
  : outcome (list VoiceEntry) :=
  fold_left
    (fun acc voice_dir =>
       match acc with
       | Raises e => Raises e
       | Returns voices =>
           match is_dir fs voice_dir with
           | Raises e => Raises e
           | Returns false => Returns voices
           | Returns true =>
               let voice_id := name voice_dir in
               match variations_in fs voice_dir with
               | Raises e => Raises e
               | Returns variations =>
                   if truthy variations
                   then Returns (voices ++ [mkVoiceEntry voice_id variations])
                   else Returns voices
               end
           end
       end)
    dirs (Returns []).

(** [GET /voices] *)
Definition list_voices (w : World) : reply (list VoiceEntry) :=
  let voices_path := Path VOICES_DIR in
  match exists_ (files w) voices_path with
  | Raises e => Unhandled e
  | Returns false => Response []
  | Returns true =>
      match iterdir (files w) voices_path with
      | Raises e => Unhandled e
      | Returns dirs =>
          match scan_voices (files w) dirs with
          | Raises e => Unhandled e
          | Returns voices => Response voices
          end
      end
  end.

(** Lines 146-148: the seed of the request, or a drawn one. *)
Definition resolve_seed (seed : option Z) : M Z :=
  match seed with
  | None =>
      raise (lit "'<' not supported between instances of 'NoneType' and 'int'")
  | Some seed =>
      if (seed <? 0) || (seed >? 2 ^ 31 - 1)
      then np_random_randint 0 (2 ^ 31 - 1)
      else ret seed
  end.

(** The body of the [try] statement of [generate_speech] (lines 145-182). *)
Definition generate_speech_try (request : GenerateRequest)
    (variation : pystr) (ref_audio_path : PurePath) (ref_text : pystr)
  : M FileResponse :=
  seed <- resolve_seed (seed request) ;;
  torch_manual_seed seed ;;
  pre <- (fun w =>
            (preprocess_ref_audio_text lib (str ref_audio_path) ref_text,
             log (preprocess_ref_audio_text_call (str ref_audio_path) ref_text) w)) ;;
  let '(ref_audio, ref_text_processed) := pre in
  res <- (fun w =>
            (infer_process lib (torch_seed w) ref_audio ref_text_processed
               (text request) (cross_fade_duration request)
               (nfe_step request) (speed request),
             log (infer_process_call ref_audio ref_text_processed (text request)) w)) ;;
  let '(final_wave, final_sample_rate, combined_spectrogram) := res in
  output_path <- NamedTemporaryFile lib ;;
  (fun w => (sf_write lib final_wave final_sample_rate,
             log (sf_write_call output_path) w)) ;;
  ret (mkFileResponse output_path (lit "audio/wav")
         (voice_id request ++ lit "_" ++ variation ++ lit ".wav")
         (Some (unlink_later output_path))).

(** The locals of [generate_speech] (lines 113-118). *)
Definition variation_of (request : GenerateRequest) : pystr :=
  or_str (variation request) (voice_id request).
Definition voice_dir_of (request : GenerateRequest) : PurePath :=
  joinpath (Path VOICES_DIR) (voice_id request).
Definition ref_audio_path_of (request : GenerateRequest) : PurePath :=
  joinpath (voice_dir_of request) (variation_of request ++ lit ".wav").
Definition ref_text_path_of (request : GenerateRequest) : PurePath :=
  joinpath (voice_dir_of request) (variation_of request ++ lit ".txt").

(** [not request.text or not request.text.strip()] *)
Definition text_missing (request : GenerateRequest) : bool :=
  is_empty (text request) || is_empty (strip (text request)).

(** [POST /generate] *)
Definition generate_speech (request : GenerateRequest) (w : World)
  : reply FileResponse * World :=
  let variation := variation_of request in
  let voice_dir := voice_dir_of request in
  let ref_audio_path := ref_audio_path_of request in
  let ref_text_path := ref_text_path_of request in
  match exists_ (files w) voice_dir with
  | Raises e => (Unhandled e, w)
  | Returns false =>
      (HTTPException 404
         (lit "Voice ID '" ++ voice_id request ++ lit "' not found"), w)
  | Returns true =>
  match exists_ (files w) ref_audio_path with
  | Raises e => (Unhandled e, w)
  | Returns false =>
      (HTTPException 404
         (lit "Variation '" ++ variation ++ lit "' not found for voice '"
            ++ voice_id request ++ lit "'"), w)
  | Returns true =>
  match exists_ (files w) ref_text_path with
  | Raises e => (Unhandled e, w)
  | Returns false =>
      (HTTPException 404
         (lit "Reference text file not found for variation '"
            ++ variation ++ lit "'"), w)
  | Returns true =>
  if text_missing request then
    (HTTPException 400
       (lit "Text parameter is required and cannot be empty"), w)
  else
    match read_text (files w) ref_text_path with
    | Raises e => (Unhandled e, w)
    | Returns s =>
        let ref_text := strip s in
        match generate_speech_try request variation ref_audio_path ref_text w with
        | (Returns r, w') => (Response r, w')
        | (Raises e, w') =>
            (HTTPException 500 (lit "Model inference error: " ++ e), w')
        end
    end
  end end end.

End App.

(** The status line a reply is answered with; an exception that leaves the
    handler is answered with 500. *)
Definition status_of {A} (r : reply A) : Z :=
  match r with
  | Response _ => 200
  | HTTPException status_code _ => status_code
  | Unhandled _ => 500
  end.

(** ** Vocabulary of the properties *)

(** A check that returned [True]. *)
Definition found (o : outcome bool) : bool :=
  match o with Returns true => true | _ => false end.

(** A sidecar for the stem of [wav_file] is found beside it. *)
Definition has_sidecar (fs : FS.t) (voice_dir wav_file : PurePath) : bool :=
  found (exists_ fs (joinpath voice_dir (stem wav_file ++ lit ".txt"))).

(** The variations the inner loop returns for a directory. *)
Definition listed_variations (fs : FS.t) (voice_dir : PurePath)
  : list pystr :=
  match variations_in fs voice_dir with
  | Returns variations => variations
  | Raises _ => []
  end.

(** A directory is listed when it is one and has a variation. *)
Definition is_voice (fs : FS.t) (voice_dir : PurePath) : bool :=
  found (is_dir fs voice_dir)
  && match variations_in fs voice_dir with
     | Returns variations => truthy variations
     | Raises _ => false
     end.

(** The call that deletes a temporary file. *)
Definition is_unlink (c : Call) : bool :=
  match c with os_unlink_call _ => true | _ => false end.

(** The seed bound of line 147. *)
Definition seed_max : Z := 2 ^ 31 - 1.

(** A text that is empty or holds only whitespace. *)
Definition blank (s : pystr) : bool := forallb is_space s.

(** The three existence checks of lines 121-134 all pass. *)
Definition files_present (VOICES_DIR : pystr) (request : GenerateRequest)
    (w : World) : bool :=
  found (exists_ (files w) (voice_dir_of VOICES_DIR request))
  && found (exists_ (files w) (ref_audio_path_of VOICES_DIR request))
  && found (exists_ (files w) (ref_text_path_of VOICES_DIR request)).

(** One of the three existence checks returns [False], those before it
    having returned [True]. *)
Definition files_missing (VOICES_DIR : pystr) (request : GenerateRequest)
    (w : World) : bool :=
  match exists_ (files w) (voice_dir_of VOICES_DIR request) with
  | Returns false => true
  | Returns true =>
      match exists_ (files w) (ref_audio_path_of VOICES_DIR request) with
      | Returns false => true
      | Returns true =>
          match exists_ (files w) (ref_text_path_of VOICES_DIR request) with
          | Returns false => true
          | _ => false
          end
      | Raises _ => false
      end
  | Raises _ => false
  end.

(** One of the three existence checks raises, those before it having
    returned [True]. *)
Definition check_raises (VOICES_DIR : pystr) (request : GenerateRequest)
    (w : World) (m : pystr) : Prop :=
  exists_ (files w) (voice_dir_of VOICES_DIR request) = Raises m
  \/ (exists_ (files w) (voice_dir_of VOICES_DIR request) = Returns true
      /\ (exists_ (files w) (ref_audio_path_of VOICES_DIR request) = Raises m
          \/ (exists_ (files w) (ref_audio_path_of VOICES_DIR request)
              = Returns true
              /\ exists_ (files w) (ref_text_path_of VOICES_DIR request)
                 = Raises m))).

(** The seed the [try] block settles on, when the request carries an
    integer. *)
Definition seed_used (request : GenerateRequest) (w : World) : option Z :=
  match seed request with
  | None => None
  | Some s =>
      match resolve_seed (Some s) w with
      | (Returns v, _) => Some v
      | (Raises _, _) => None
      end
  end.

(** An exception with message [m] is raised in one of the stages of the
    [try] block: settling the seed, preprocessing the reference audio,
    inference, creating the temporary file, or writing it. *)
Inductive raised_in_try (lib : Environment) (request : GenerateRequest)
    (ref_audio_path : PurePath) (ref_text : pystr) (w : World)
  : pystr -> Prop :=
  | raised_by_seed :
      seed request = None ->
      raised_in_try lib request ref_audio_path ref_text w
        (lit "'<' not supported between instances of 'NoneType' and 'int'")
  | raised_by_preprocess s m :
      seed_used request w = Some s ->
      preprocess_ref_audio_text lib (str ref_audio_path) ref_text = Raises m ->
      raised_in_try lib request ref_audio_path ref_text w m
  | raised_by_infer s a t m :
      seed_used request w = Some s ->
      preprocess_ref_audio_text lib (str ref_audio_path) ref_text
        = Returns (a, t) ->
      infer_process lib s a t (text request) (cross_fade_duration request)
        (nfe_step request) (speed request) = Raises m ->
      raised_in_try lib request ref_audio_path ref_text w m
  | raised_by_tempfile s a t res m :
      seed_used request w = Some s ->
      preprocess_ref_audio_text lib (str ref_audio_path) ref_text
        = Returns (a, t) ->
      infer_process lib s a t (text request) (cross_fade_duration request)
        (nfe_step request) (speed request) = Returns res ->
      NamedTemporaryFile_error lib = Some m ->
      raised_in_try lib request ref_audio_path ref_text w m
  | raised_by_write s a t wave rate spec m :
      seed_used request w = Some s ->
      preprocess_ref_audio_text lib (str ref_audio_path) ref_text
        = Returns (a, t) ->
      infer_process lib s a t (text request) (cross_fade_duration request)
        (nfe_step request) (speed request) = Returns (wave, rate, spec) ->
      NamedTemporaryFile_error lib = None ->
      sf_write lib wave rate = Raises m ->
      raised_in_try lib request ref_audio_path ref_text w m.

(** Every stage of the [try] block returns. *)
Definition stages_return (lib : Environment) (request : GenerateRequest)
    (ref_audio_path : PurePath) (ref_text : pystr) (w : World) : Prop :=
  exists s a t wave rate spec,
    seed_used request w = Some s
    /\ preprocess_ref_audio_text lib (str ref_audio_path) ref_text
       = Returns (a, t)
    /\ infer_process lib s a t (text request) (cross_fade_duration request)
         (nfe_step request) (speed request) = Returns (wave, rate, spec)
    /\ NamedTemporaryFile_error lib = None
    /\ sf_write lib wave rate = Returns tt.

(** ** Scenarios

    The storage of the specification's scenarios: [alice] with the pair
    [alice.wav] / [alice.txt] and a [formal.wav] without sidecar, an empty
    voice directory, and a stray file next to the voice directories.
    The server runs in [/srv] with [VOICES_DIR] at its default. *)

Module Scenario.

Definition VOICES_DIR : pystr := lit "data/voices".

Definition riff : content :=
  Undecodable (lit "'utf-8' codec can't decode byte 0x80 in position 4").

Definition alice : node :=
  Dir [(lit "alice.wav", File riff);
       (lit "alice.txt", File (Text (lit " Some call me nature. ")));
       (lit "formal.wav", File riff)].

Definition voices : node :=
  Dir [(lit "alice", alice);
       (lit "empty", Dir []);
       (lit "README", File (Text (lit "One directory per voice.")))].

Definition disk : FS.t :=
  mkFS (Dir [(lit "srv", Dir [(lit "data", Dir [(lit "voices", voices)])])])
       [lit "srv"].

(** A machine without the storage root. *)
Definition bare_disk : FS.t :=
  mkFS (Dir [(lit "srv", Dir [])]) [lit "srv"].

Definition generator : RandomState :=
  mkRandomState (fun n => 3000000000 + Z.of_nat n) 0.

Definition world : World := mkWorld disk generator 0 [] [].
Definition bare_world : World := mkWorld bare_disk generator 0 [] [].

(** A library in which every call returns. *)
Definition engine : Environment :=
  mkEnvironment
    (fun ref_audio ref_text => Returns (ref_audio, ref_text))
    (fun seed _ _ gen_text _ _ _ =>
       Returns (seed :: map Z.of_N gen_text, 24000, []))
    None
    (fun _ _ => Returns tt).

(** The same library on a full disk: the temporary file is created, writing
    the samples into it fails. *)
Definition engine_disk_full : Environment :=
  mkEnvironment
    (preprocess_ref_audio_text engine)
    (infer_process engine)
    None
    (fun _ _ => Raises (lit "Error opening file: System error."))
  .

Definition hello : GenerateRequest :=
  GenerateRequest_defaults (lit "alice") (lit "Hello").

Definition hello_null_seed (voice : pystr) : GenerateRequest :=
  mkGenerateRequest voice (lit "Hello") None (Some float_1_0) (Some 32)
                    (Some float_0_15) None (Some false).

Definition no_text : GenerateRequest :=
  GenerateRequest_defaults (lit "alice") [].

(** A text of a space, a tab and a no-break space. *)
Definition whitespace : GenerateRequest :=
  GenerateRequest_defaults (lit "alice") [32%N; 9%N; 160%N].

(** No voice_id, and a variation that reaches into a voice directory. *)
Definition nameless : GenerateRequest :=
  mkGenerateRequest [] (lit "Hi") (Some (lit "alice/alice")) (Some float_1_0)
                    (Some 32) (Some float_0_15) (Some 7) (Some false).

End Scenario.

(** ** Model state, [startup_event] and [health_check] *)

Module Startup.

(** The two module globals of lines 32-33; [None] until loaded. *)
Record Models := mkModels {
  vocoder : option N;
  ema_model : option N
}.

(** Both globals at their initial value. *)
Definition unloaded : Models := mkModels None None.

(** [dict(dim=..., depth=..., heads=..., ff_mult=..., text_dim=...,
    conv_layers=...)] *)
Record ModelCfg := mkModelCfg {
  dim : Z; depth : Z; heads : Z; ff_mult : Z; text_dim : Z; conv_layers : Z
}.

(** What the loaders answer: the vocoder, the local path of the
    checkpoint, the model. *)
Record Loaders := mkLoaders {
  load_vocoder : outcome N;
  cached_path : pystr -> outcome pystr;
  load_model : ModelCfg -> pystr -> outcome N
}.

(** [startup_event] (lines 37-53): a global is assigned when the call on
    its right returns. *)
Definition startup_event (ld : Loaders) (g : Models) : outcome unit * Models :=
  match load_vocoder ld with
  | Raises e => (Raises e, g)
  | Returns v =>
      let g := mkModels (Some v) (ema_model g) in
      match cached_path ld
              (lit "hf://SWivid/F5-TTS/F5TTS_v1_Base/model_1250000.safetensors")
      with
      | Raises e => (Raises e, g)
      | Returns ckpt_path =>
          let model_cfg := mkModelCfg 1024 22 16 2 512 4 in
          match load_model ld model_cfg ckpt_path with
          | Raises e => (Raises e, g)
          | Returns m => (Returns tt, mkModels (vocoder g) (Some m))
          end
      end
  end.

(** The body of the [/health] answer. *)
Record Health := mkHealth { status : pystr; model_loaded : bool }.

(** [GET /health] *)
Definition health_check (g : Models) : Health :=
  mkHealth (lit "ok")
           (match ema_model g with Some _ => true | None => false end).

End Startup.

(** ** Directory trees as a file system keeps them *)

(** A name a directory entry can have: not empty, without [/], neither
    [.] nor [..], made of bytes (no NUL) and at most [NAME_MAX] of
    them. *)
Definition has_slash (n : pystr) : bool :=
  existsb (fun c => char_eqb c slash) n.

Definition entry_name_ok (n : pystr) : bool :=
  negb (is_empty n) && negb (has_slash n)
  && negb (PyStr.eqb n [dot]) && negb (PyStr.eqb n dotdot)
  && encodable n && (byte_len n <=? NAME_MAX).

(** What [str] puts before the name of a directory entry of [p]. *)
Definition child_prefix (p : PurePath) : pystr :=
  (if absolute p then (if two_slashes p then [slash; slash] else [slash])
   else [])
  ++ match parts p with
     | [] => []
     | l => join_with slash l ++ [slash]
     end.

Fixpoint tree_ok (x : node) : bool :=
  match x with
  | File _ => true
  | Dir es =>
      (fix all (l : list (pystr * node)) : bool :=
         match l with
         | [] => true
         | (m, y) :: r => entry_name_ok m && tree_ok y && all r
         end) es
  end.

(** ** Requests derived from others *)

(** The request with its [variation] replaced. *)
Definition with_variation (v : option pystr) (r : GenerateRequest)
  : GenerateRequest :=
  mkGenerateRequest (voice_id r) (text r) v (speed r) (nfe_step r)
                    (cross_fade_duration r) (seed r) (remove_silence r).

(** The request with its [remove_silence] replaced. *)
Definition with_remove_silence (b : option bool) (r : GenerateRequest)
  : GenerateRequest :=
  mkGenerateRequest (voice_id r) (text r) (variation r) (speed r)
                    (nfe_step r) (cross_fade_duration r) (seed r) b.

(** The seed falls in the range line 147 accepts. *)
Definition seed_in_range (s : Z) : bool := (0 <=? s) && (s <=? seed_max).

(** The calls of a run that draws no seed, in order. *)
Definition calls_after_seed (s : Z) (ref_audio ref_text a t gen_text : pystr)
    (file : tmp_path) : list Call :=
  [torch_manual_seed_call s;
   preprocess_ref_audio_text_call ref_audio ref_text;
   infer_process_call a t gen_text;
   NamedTemporaryFile_call;
   sf_write_call file].

(** ** The client of [test_api.py] *)

Module TestApi.

(** A JSON object whose values are strings, as the two error tests send
    it. *)
Definition dict := list (pystr * pystr).

Fixpoint get (key : pystr) (d : dict) : option pystr :=
  match d with
  | [] => None
  | (k, v) :: r => if PyStr.eqb k key then Some v else get key r
  end.

(** What the client looks at in a response: the status, and the body as
    [response.json()] reads it ([None] when that raises). *)
Record ClientResponse := mkClientResponse {
  status_code : Z;
  json : option pystr
}.

(** [test_error_invalid_voice] (lines 286-318), over the answer of
    [requests.post]. *)
Definition test_error_invalid_voice (post : dict -> outcome ClientResponse)
  : bool :=
  let request_data :=
    [(lit "voice_id", lit "nonexistent_voice");
     (lit "text", lit "This should fail")] in
  match post request_data with
  | Raises _ => false
  | Returns response =>
      if status_code response =? 404 then
        match json response with
        | Some _ => true
        | None => false
        end
      else false
  end.

(** [test_error_empty_text] (lines 321-353). *)
Definition test_error_empty_text (post : dict -> outcome ClientResponse)
  : bool :=
  let request_data :=
    [(lit "voice_id", lit "test_voice"); (lit "text", [])] in
  match post request_data with
  | Raises _ => false
  | Returns response =>
      if status_code response =? 400 then
        match json response with
        | Some _ => true
        | None => false
        end
      else false
  end.

(** The body of a [POST /generate] read into [GenerateRequest]: the two
    required fields, [variation] when given, and the defaults of the
    class for the rest. *)
Definition GenerateRequest_of_body (d : dict) : option GenerateRequest :=
  match get (lit "voice_id") d, get (lit "text") d with
  | Some v, Some t =>
      Some (mkGenerateRequest v t (get (lit "variation") d)
              (Some float_1_0) (Some 32) (Some float_0_15) (Some (-1))
              (Some false))
  | _, _ => None
  end.

(** The exchange with a server that runs [generate_speech] in world [w]:
    a body that is no [GenerateRequest] is answered with 422, an
    [HTTPException] with its status and a JSON body holding the detail,
    anything else without a JSON body. *)
Definition post_generate (VOICES_DIR : pystr) (lib : Environment)
    (w : World) (d : dict) : outcome ClientResponse :=
  match GenerateRequest_of_body d with
  | None => Returns (mkClientResponse 422 (Some (lit "Field required")))
  | Some request =>
      let r := fst (generate_speech VOICES_DIR lib request w) in
      Returns (mkClientResponse (status_of r)
                 (match r with
                  | HTTPException _ detail => Some detail
                  | _ => None
                  end))
  end.

End TestApi.

(** ** More scenarios *)

Module Cases.

(** A library whose inference raises. *)
Definition engine_out_of_memory : Environment :=
  mkEnvironment
    (preprocess_ref_audio_text Scenario.engine)
    (fun _ _ _ _ _ _ _ => Raises (lit "CUDA out of memory."))
    None
    (sf_write Scenario.engine).

Definition alice_as (variation : pystr) : GenerateRequest :=
  with_variation (Some variation) Scenario.hello.

(** [alice] with the seed 7. *)
Definition seeded : GenerateRequest :=
  mkGenerateRequest (lit "alice") (lit "Hello") None (Some float_1_0)
                    (Some 32) (Some float_0_15) (Some 7) (Some false).

(** The world of the scenarios after other requests: another generator
    state, another torch seed, calls on record. *)
Definition later_world : World :=
  mkWorld Scenario.disk (mkRandomState (fun n => 17 * Z.of_nat n) 5) 99 []
          [np_random_randint_call 0 seed_max; torch_manual_seed_call 99].

(** [alice] named by the absolute path of her directory. *)
Definition by_path : GenerateRequest :=
  GenerateRequest_defaults (lit "/srv/data/voices/alice") (lit "Hello").

(** The storage of the test suite: [test_voice] with the variations
    [variation] and [test_voice]. *)
Definition test_disk : FS.t :=
  mkFS (Dir [(lit "srv",
              Dir [(lit "data",
                    Dir [(lit "voices",
                          Dir [(lit "test_voice",
                                Dir [(lit "variation.wav", File Scenario.riff);
                                     (lit "variation.txt",
                                      File (Text (lit "A variation.")));
                                     (lit "test_voice.wav", File Scenario.riff);
                                     (lit "test_voice.txt",
                                      File (Text (lit "The default.")))])])])])])
       [lit "srv"].

Definition test_world : World :=
  mkWorld test_disk Scenario.generator 0 [] [].

(** A voice whose only audio file is called [.wav], with [.wav.txt]
    beside it. *)
Definition hidden_disk : FS.t :=
  mkFS (Dir [(lit "srv",
              Dir [(lit "data",
                    Dir [(lit "voices",
                          Dir [(lit "carol",
                                Dir [(lit ".wav", File Scenario.riff);
                                     (lit ".wav.txt",
                                      File (Text (lit "Hidden.")))])])])])])
       [lit "srv"].

Definition hidden_world : World :=
  mkWorld hidden_disk Scenario.generator 0 [] [].

Definition carol : GenerateRequest :=
  mkGenerateRequest (lit "carol") (lit "Hello") (Some (lit ".wav"))
                    (Some float_1_0) (Some 32) (Some float_0_15) (Some (-1))
                    (Some false).

(** A world in which the sidecar of [alice] is a directory. *)
Definition sidecar_dir_world : World :=
  mkWorld
    (mkFS (Dir [(lit "srv",
                 Dir [(lit "data",
                       Dir [(lit "voices",
                             Dir [(lit "alice",
                                   Dir [(lit "alice.wav", File Scenario.riff);
                                        (lit "alice.txt", Dir [])])])])])])
          [lit "srv"])
    Scenario.generator 0 [] [].

(** A voice_id of 300 letters, longer than a file name may be. *)
Definition long_name : pystr := repeat (of_ascii "a") 300.


(** Loaders that all return. *)
Definition loaders : Startup.Loaders :=
  Startup.mkLoaders (Returns 1%N)
    (fun _ => Returns (lit "/root/.cache/model_1250000.safetensors"))
    (fun _ _ => Returns 2%N).

End Cases.

(** * Properties *)

(** ** Strings *)

Lemma lstrip_nil_iff (s : pystr) : lstrip s = [] <-> blank s = true.
Proof.
  unfold blank. induction s as [|c r IH]; simpl.
  - tauto.
  - destruct (is_space c); simpl.
    + exact IH.
    + split; discriminate.
Qed.

Lemma lstrip_idempotent (s : pystr) : lstrip (lstrip s) = lstrip s.
Proof.
  induction s as [|c r IH]; simpl; auto.
  destruct (is_space c) eqn:E; auto.
  simpl. now rewrite E.
Qed.

Lemma blank_rev (s : pystr) : blank (rev s) = blank s.
Proof.
  unfold blank. induction s as [|c r IH]; simpl; auto.
  rewrite forallb_app, IH. simpl. rewrite andb_true_r. apply andb_comm.
Qed.

Lemma rev_nil_inv {A} (l : list A) : rev l = [] -> l = [].
Proof.
  intros H. apply (f_equal (@rev A)) in H. now rewrite rev_involutive in H.
Qed.

Lemma strip_nil_iff (s : pystr) : strip s = [] <-> blank s = true.
Proof.
  unfold strip, rstrip. split.
  - intros H. apply rev_nil_inv in H.
    apply lstrip_nil_iff in H. rewrite blank_rev in H.
    apply lstrip_nil_iff in H. rewrite lstrip_idempotent in H.
    now apply lstrip_nil_iff.
  - intros H. apply lstrip_nil_iff in H. now rewrite H.
Qed.

Lemma is_empty_true {s : pystr} : is_empty s = true <-> s = [].
Proof. destruct s; simpl; split; congruence. Qed.

(** The guard of line 137 fires exactly on blank texts. *)
Lemma text_missing_blank (request : GenerateRequest) :
  text_missing request = blank (text request).
Proof.
  unfold text_missing.
  destruct (blank (text request)) eqn:B.
  - apply strip_nil_iff in B. rewrite B. apply orb_true_r.
  - apply orb_false_iff. split.
    + destruct (text request); [discriminate B | reflexivity].
    + destruct (is_empty (strip (text request))) eqn:E; auto.
      apply is_empty_true, strip_nil_iff in E. congruence.
Qed.

(** ** Paths *)

Lemma Path_empty : Path [] = mkPath false false [].
Proof. reflexivity. Qed.

(** Joining the empty string changes nothing. *)
Lemma joinpath_empty (p : PurePath) : joinpath p [] = p.
Proof.
  unfold joinpath. rewrite Path_empty. simpl.
  rewrite app_nil_r. now destruct p.
Qed.

(** ** The loops of [list_voices] *)

Lemma fold_left_collect {A B} (keep : A -> bool) (f : A -> B)
    (l : list A) (acc : list B) :
  fold_left (fun acc x => if keep x then acc ++ [f x] else acc) l acc
  = acc ++ map f (filter keep l).
Proof.
  revert acc. induction l as [|x l IH]; intros acc; simpl.
  - now rewrite app_nil_r.
  - rewrite IH. destruct (keep x); simpl; auto.
    now rewrite <- app_assoc.
Qed.

Lemma found_true (o : outcome bool) : found o = true <-> o = Returns true.
Proof.
  destruct o as [[|]|e]; simpl; split; congruence.
Qed.

(** Once an iteration has raised, the loop is over. *)
Lemma loop_raised {A B} (step : list B -> A -> outcome (list B))
    (xs : list A) (e : pystr) :
  fold_left
    (fun acc x =>
       match acc with
       | Raises e => Raises e
       | Returns l => step l x
       end) xs (Raises e)
  = Raises e.
Proof. induction xs as [|x xs IH]; simpl; auto. Qed.

(** A loop that returned collected, in order, what its iterations let
    through. *)
Lemma loop_collect {A B} (step : list B -> A -> outcome (list B))
    (keep : A -> bool) (f : A -> B) :
  (forall l x,
     (step l x = Returns (l ++ [f x]) /\ keep x = true)
     \/ (step l x = Returns l /\ keep x = false)
     \/ exists e, step l x = Raises e) ->
  forall xs acc out,
    fold_left
      (fun acc x =>
         match acc with
         | Raises e => Raises e
         | Returns l => step l x
         end) xs (Returns acc)
    = Returns out ->
    out = acc ++ map f (filter keep xs).
Proof.
  intros Hstep. induction xs as [|x xs IH]; intros acc out; simpl.
  - intros H. inversion H. now rewrite app_nil_r.
  - destruct (Hstep acc x) as [[-> ->]|[[-> ->]|(e & ->)]].
    + intros H. apply IH in H. simpl. now rewrite <- app_assoc in H.
    + apply IH.
    + rewrite loop_raised. discriminate.
Qed.

Lemma variations_in_eq (fs : FS.t) (voice_dir : PurePath)
    (variations : list pystr) :
  variations_in fs voice_dir = Returns variations ->
  exists wav_files,
    glob_suffix fs voice_dir (lit ".wav") = Returns wav_files
    /\ variations
       = map stem (filter (has_sidecar fs voice_dir) wav_files).
Proof.
  unfold variations_in.
  destruct (glob_suffix fs voice_dir (lit ".wav")) as [wav_files|e];
    [|discriminate].
  intros H. exists wav_files. split; [reflexivity|].
  refine (loop_collect
            (fun variations wav_file =>
               match
                 exists_ fs (joinpath voice_dir (stem wav_file ++ lit ".txt"))
               with
               | Raises e => Raises e
               | Returns true => Returns (variations ++ [stem wav_file])
               | Returns false => Returns variations
               end)
            (has_sidecar fs voice_dir) stem _ wav_files [] variations H).
  intros l x. unfold has_sidecar.
  destruct (exists_ fs (joinpath voice_dir (stem x ++ lit ".txt")))
    as [[|]|e]; simpl; eauto.
Qed.

Lemma scan_voices_eq (fs : FS.t) (dirs : list PurePath)
    (voices : list VoiceEntry) :
  scan_voices fs dirs = Returns voices ->
  voices = map (fun d => mkVoiceEntry (name d) (listed_variations fs d))
               (filter (is_voice fs) dirs).
Proof.
  unfold scan_voices. intros H.
  refine (loop_collect
            (fun voices voice_dir =>
               match is_dir fs voice_dir with
               | Raises e => Raises e
               | Returns false => Returns voices
               | Returns true =>
                   match variations_in fs voice_dir with
                   | Raises e => Raises e
                   | Returns variations =>
                       if truthy variations
                       then Returns (voices ++ [mkVoiceEntry (name voice_dir)
                                                  variations])
                       else Returns voices
                   end
               end)
            (is_voice fs)
            (fun d => mkVoiceEntry (name d) (listed_variations fs d))
            _ dirs [] voices H).
  intros l d. unfold is_voice, listed_variations.
  destruct (is_dir fs d) as [[|]|e]; simpl; eauto.
  destruct (variations_in fs d) as [vs|e]; simpl; eauto.
  destruct (truthy vs); eauto.
Qed.

(** ** The seed *)

Lemma randint_seed_range (w : World) :
  np_random_randint 0 (2 ^ 31 - 1) w
  = (Returns (raw (np_random w) (consumed (np_random w)) mod seed_max),
     log (np_random_randint_call 0 (2 ^ 31 - 1))
         (with_np_random
            (mkRandomState (raw (np_random w)) (S (consumed (np_random w))))
            w)).
Proof.
  unfold np_random_randint, seed_max.
  change (2 ^ 31 - 1 <=? 0) with false. cbv iota.
  now rewrite Z.sub_0_r, Z.add_0_l.
Qed.

(** With an integer seed the seed step never raises. *)
Lemma resolve_seed_returns (s : Z) (w : World) :
  exists v w', resolve_seed (Some s) w = (Returns v, w').
Proof.
  unfold resolve_seed.
  destruct ((s <? 0) || (s >? 2 ^ 31 - 1)).
  - rewrite randint_seed_range. eauto.
  - unfold ret. eauto.
Qed.

Lemma seed_used_some (request : GenerateRequest) (w : World) (v : Z) :
  seed_used request w = Some v ->
  exists w', resolve_seed (seed request) w = (Returns v, w').
Proof.
  unfold seed_used. destruct (seed request) as [s|]; [|discriminate].
  destruct (resolve_seed (Some s) w) as [[v'|e] w'];
    intros H; inversion H; subst. eauto.
Qed.

Lemma seed_used_of_int (request : GenerateRequest) (w : World) (s : Z) :
  seed request = Some s -> exists v, seed_used request w = Some v.
Proof.
  intros E. unfold seed_used. rewrite E.
  destruct (resolve_seed_returns s w) as (v & w' & R). rewrite R. eauto.
Qed.

(** ** The [try] block *)

Ltac run_try :=
  unfold generate_speech_try, bind, torch_manual_seed, modify,
    NamedTemporaryFile, ret; simpl.

Lemma try_raises (lib : Environment) (request : GenerateRequest)
    (variation : pystr) (p : PurePath) (t : pystr) (w : World) (m : pystr) :
  raised_in_try lib request p t w m ->
  exists w', generate_speech_try lib request variation p t w = (Raises m, w').
Proof.
  intros R. destruct R as
    [E | s m S P | s a t' m S P I | s a t' res m S P I T
     | s a t' wave rate spec m S P I T W].
  - run_try. rewrite E. unfold resolve_seed, raise. eauto.
  - apply seed_used_some in S. destruct S as (w1 & S).
    run_try. rewrite S, P. eauto.
  - apply seed_used_some in S. destruct S as (w1 & S).
    run_try. rewrite S, P. simpl. rewrite I. eauto.
  - apply seed_used_some in S. destruct S as (w1 & S).
    run_try. rewrite S, P. simpl. rewrite I.
    destruct res as [[wave rate] spec]. rewrite T. eauto.
  - apply seed_used_some in S. destruct S as (w1 & S).
    run_try. rewrite S, P. simpl. rewrite I, T. simpl. rewrite W. eauto.
Qed.

Lemma try_returns (lib : Environment) (request : GenerateRequest)
    (variation : pystr) (p : PurePath) (t : pystr) (w : World) :
  stages_return lib request p t w ->
  exists r w', generate_speech_try lib request variation p t w = (Returns r, w').
Proof.
  intros (s & a & t' & wave & rate & spec & S & P & I & T & W).
  apply seed_used_some in S. destruct S as (w1 & S).
  run_try. rewrite S, P. simpl. rewrite I, T. simpl. rewrite W. eauto.
Qed.

(** The stages either all return or one of them raises. *)
Lemma try_stages (lib : Environment) (request : GenerateRequest)
    (p : PurePath) (t : pystr) (w : World) :
  stages_return lib request p t w
  \/ exists m, raised_in_try lib request p t w m.
Proof.
  destruct (seed request) as [s0|] eqn:E.
  2:{ right. eexists. now apply raised_by_seed. }
  destruct (seed_used_of_int request w s0 E) as (s & S).
  destruct (preprocess_ref_audio_text lib (str p) t) as [[a t']|m] eqn:P.
  2:{ right. exists m. eapply raised_by_preprocess; eauto. }
  destruct (infer_process lib s a t' (text request)
              (cross_fade_duration request) (nfe_step request)
              (speed request)) as [[[wave rate] spec]|m] eqn:I.
  2:{ right. exists m. eapply raised_by_infer; eauto. }
  destruct (NamedTemporaryFile_error lib) as [m|] eqn:T.
  { right. exists m. eapply raised_by_tempfile; eauto. }
  destruct (sf_write lib wave rate) as [[]|m] eqn:W.
  2:{ right. exists m. eapply raised_by_write; eauto. }
  left. exists s, a, t', wave, rate, spec. auto.
Qed.

Lemma try_returns_iff (lib : Environment) (request : GenerateRequest)
    (variation : pystr) (p : PurePath) (t : pystr) (w : World) :
  (exists r w', generate_speech_try lib request variation p t w = (Returns r, w'))
  <-> stages_return lib request p t w.
Proof.
  split; [|apply try_returns].
  intros (r & w' & H).
  destruct (try_stages lib request p t w) as [S|(m & R)]; auto.
  apply (try_raises _ _ variation) in R. destruct R as (w1 & R).
  congruence.
Qed.

(** ** [generate_speech] *)

(** The three checks pass when each of them returns [True]. *)
Lemma files_present_true (VOICES_DIR : pystr) (request : GenerateRequest)
    (w : World) :
  files_present VOICES_DIR request w = true
  <-> exists_ (files w) (voice_dir_of VOICES_DIR request) = Returns true
      /\ exists_ (files w) (ref_audio_path_of VOICES_DIR request)
         = Returns true
      /\ exists_ (files w) (ref_text_path_of VOICES_DIR request)
         = Returns true.
Proof.
  unfold files_present. rewrite !andb_true_iff, !found_true. tauto.
Qed.

(** Past the four guards and the read of the sidecar, the reply is decided
    by the [try] block. *)
Lemma generate_speech_past_guards (VOICES_DIR : pystr) (lib : Environment)
    (request : GenerateRequest) (w : World) (s : pystr) :
  files_present VOICES_DIR request w = true ->
  text_missing request = false ->
  read_text (files w) (ref_text_path_of VOICES_DIR request) = Returns s ->
  generate_speech VOICES_DIR lib request w
  = match generate_speech_try lib request (variation_of request)
            (ref_audio_path_of VOICES_DIR request) (strip s) w with
    | (Returns r, w') => (Response r, w')
    | (Raises e, w') =>
        (HTTPException 500 (lit "Model inference error: " ++ e), w')
    end.
Proof.
  intros F T R. apply files_present_true in F. destruct F as (F1 & F2 & F3).
  unfold generate_speech. rewrite F1, F2, F3, T, R. reflexivity.
Qed.

(** A reply with status 200 comes out of the [try] block. *)
Lemma generate_speech_response_inv (VOICES_DIR : pystr) (lib : Environment)
    (request : GenerateRequest) (w w' : World) (r : FileResponse) :
  generate_speech VOICES_DIR lib request w = (Response r, w') ->
  files_present VOICES_DIR request w = true
  /\ text_missing request = false
  /\ exists s,
       read_text (files w) (ref_text_path_of VOICES_DIR request) = Returns s
       /\ generate_speech_try lib request (variation_of request)
            (ref_audio_path_of VOICES_DIR request) (strip s) w
          = (Returns r, w').
Proof.
  unfold files_present, generate_speech.
  destruct (exists_ (files w) (voice_dir_of VOICES_DIR request))
    as [[|]|e1]; try discriminate.
  destruct (exists_ (files w) (ref_audio_path_of VOICES_DIR request))
    as [[|]|e2]; try discriminate.
  destruct (exists_ (files w) (ref_text_path_of VOICES_DIR request))
    as [[|]|e3]; try discriminate.
  destruct (text_missing request); [discriminate|].
  destruct (read_text (files w) (ref_text_path_of VOICES_DIR request))
    as [s|e]; [|discriminate].
  simpl.
  destruct (generate_speech_try lib request (variation_of request)
              (ref_audio_path_of VOICES_DIR request) (strip s) w)
    as [[r0|e] w0] eqn:G; intros H; inversion H; subst.
  repeat split; auto. exists s. auto.
Qed.




(** C7: when the voice directory, the reference audio and the reference
    text all exist and the text is empty or only whitespace, [/generate]
    raises [HTTPException] with status 400 and the detail
    [Text parameter is required and cannot be empty]; the world is left as
    it was: no call into the library, no temporary file. *)
Theorem generate_speech_blank_text (VOICES_DIR : pystr)
    (lib : Environment) (request : GenerateRequest) (w : World) :
  files_present VOICES_DIR request w = true ->
  blank (text request) = true ->
  generate_speech VOICES_DIR lib request w
  = (HTTPException 400
       (lit "Text parameter is required and cannot be empty"), w).
Proof.
  intros F B. apply files_present_true in F. destruct F as (F1 & F2 & F3).
  unfold generate_speech.
  rewrite F1, F2, F3, text_missing_blank, B. reflexivity.
Qed.

(** C7 at work: [alice] exists, the text is a space, a tab and a
    no-break space. *)
Lemma generate_speech_blank_text_witness :
  files_present Scenario.VOICES_DIR Scenario.whitespace Scenario.world = true
  /\ blank (text Scenario.whitespace) = true
  /\ generate_speech Scenario.VOICES_DIR Scenario.engine Scenario.whitespace
       Scenario.world
     = (HTTPException 400
          (lit "Text parameter is required and cannot be empty"),
        Scenario.world).
Proof.
  split; [reflexivity|]. split; [reflexivity|].
  apply (generate_speech_blank_text Scenario.VOICES_DIR Scenario.engine
           Scenario.whitespace Scenario.world); reflexivity.
Defined.

(** ** [list_voices] *)

(** C8: when the storage root does not exist, [/voices] answers with the
    empty catalog and raises nothing. *)
Theorem list_voices_without_root (VOICES_DIR : pystr) (w : World) :
  exists_ (files w) (Path VOICES_DIR) = Returns false ->
  list_voices VOICES_DIR w = Response [].
Proof.
  intros H. unfold list_voices. rewrite H. reflexivity.
Qed.

(** C8 at work: a machine whose [/srv] holds no [data/voices]. *)
Lemma list_voices_without_root_witness :
  exists_ (files Scenario.bare_world) (Path Scenario.VOICES_DIR)
  = Returns false
  /\ list_voices Scenario.VOICES_DIR Scenario.bare_world = Response [].
Proof.
  split; [reflexivity|].
  apply (list_voices_without_root Scenario.VOICES_DIR Scenario.bare_world).
  reflexivity.
Defined.

Lemma eqb_eq (s t : pystr) : PyStr.eqb s t = true <-> s = t.
Proof.
  revert t. induction s as [|a s IH]; intros [|b t]; simpl;
    try (split; congruence).
  unfold char_eqb. rewrite andb_true_iff, N.eqb_eq, IH.
  split; [intros [-> ->]; reflexivity | intros H; inversion H; auto].
Qed.

Lemma endswith_inv (s suffix : pystr) :
  endswith s suffix = true -> exists pre, s = pre ++ suffix.
Proof.
  unfold endswith. intros H. apply andb_true_iff in H. destruct H as [_ H].
  apply eqb_eq in H.
  exists (firstn (List.length s - List.length suffix) s).
  generalize (List.length s - List.length suffix)%nat as k, H.
  intros k <-. symmetry. apply firstn_skipn.
Qed.

Lemma rfind_from_absent (i : Z) (c : char) (s : pystr) :
  forallb (fun a => negb (char_eqb a c)) s = true -> rfind_from i c s = -1.
Proof.
  revert i. induction s as [|a s IH]; intros i H; simpl in *; auto.
  apply andb_true_iff in H. destruct H as [Ha Hs].
  rewrite (IH (i + 1) Hs). simpl.
  apply negb_true_iff in Ha. now rewrite Ha.
Qed.

(** The last occurrence: nothing after it is [c]. *)
Lemma rfind_from_last (i : Z) (c : char) (pre rest : pystr) :
  0 <= i ->
  forallb (fun a => negb (char_eqb a c)) rest = true ->
  rfind_from i c (pre ++ c :: rest) = i + len pre.
Proof.
  revert i. induction pre as [|a pre IH]; intros i Hi Hr.
  - simpl. rewrite (rfind_from_absent (i + 1) c rest Hr). simpl.
    unfold char_eqb. rewrite N.eqb_refl. unfold len. simpl. lia.
  - simpl. rewrite (IH (i + 1)) by (auto; lia).
    unfold len in *. simpl List.length.
    destruct (0 <=? i + 1 + Z.of_nat (List.length pre)) eqn:E; [lia|].
    apply Z.leb_gt in E. lia.
Qed.

Lemma name_child (d : PurePath) (n : pystr) : name (child d n) = n.
Proof. unfold name, child. simpl. apply last_last. Qed.

(** The stem of a directory entry matched by [*.wav]: the name without
    [.wav], except for the entry called [.wav], whose stem is its whole
    name. *)
Lemma stem_wav (d : PurePath) (pre : pystr) :
  stem (child d (pre ++ lit ".wav"))
  = match pre with [] => lit ".wav" | _ :: _ => pre end.
Proof.
  unfold stem. rewrite name_child.
  change (lit ".wav") with (dot :: lit "wav").
  unfold rfind. rewrite (rfind_from_last 0 dot pre (lit "wav")); try lia; auto.
  unfold len. rewrite length_app. simpl List.length.
  destruct pre as [|a pre].
  - reflexivity.
  - replace (0 <? 0 + Z.of_nat (List.length (a :: pre))) with true
      by (symmetry; apply Z.ltb_lt; simpl List.length; lia).
    replace (0 + Z.of_nat (List.length (a :: pre))
               <? Z.of_nat (List.length (a :: pre) + 4) - 1) with true
      by (symmetry; apply Z.ltb_lt; lia).
    simpl andb. cbv iota. unfold slice_to.
    rewrite Z.add_0_l, Nat2Z.id.
    now rewrite firstn_app, Nat.sub_diag, firstn_all, app_nil_r.
Qed.

Lemma resolve_found (fs : FS.t) (p : PurePath) (n : node) :
  resolve fs p = Some n <-> stat fs p = Found n.
Proof.
  unfold resolve. destruct (stat fs p); split; congruence.
Qed.

Lemma exists_true (fs : FS.t) (p : PurePath) :
  exists_ fs p = Returns true <-> exists n, resolve fs p = Some n.
Proof.
  unfold exists_, resolve. destruct (stat fs p); split;
    try discriminate; eauto; intros (n & H); discriminate.
Qed.

Lemma is_dir_true (fs : FS.t) (p : PurePath) :
  is_dir fs p = Returns true <-> exists es, resolve fs p = Some (Dir es).
Proof.
  unfold is_dir, resolve. destruct (stat fs p) as [[c|es]| | |]; split;
    try discriminate; eauto; intros (es' & H); discriminate.
Qed.

Lemma glob_suffix_in (fs : FS.t) (d f : PurePath) (suffix : pystr)
    (matches : list PurePath) :
  glob_suffix fs d suffix = Returns matches ->
  In f matches ->
  exists entries n x,
    resolve fs d = Some (Dir entries)
    /\ In (n, x) entries
    /\ endswith n suffix = true
    /\ f = child d n.
Proof.
  unfold glob_suffix, resolve.
  destruct (stat fs d) as [[c|entries]| | |]; intros H; inversion H; subst;
    simpl; try tauto.
  intros Hf. apply in_map_iff in Hf. destruct Hf as ([n x] & <- & Hf).
  apply filter_In in Hf. destruct Hf as [Hf E].
  exists entries, n, x. auto.
Qed.

(** Every variation listed for [voice_dir] is the stem of an entry of that
    directory matched by [*.wav], and [<stem>.txt] exists beside it. *)
Lemma variations_in_sound (fs : FS.t) (voice_dir : PurePath)
    (variations : list pystr) (v : pystr) :
  variations_in fs voice_dir = Returns variations ->
  In v variations ->
  exists entries wav x,
    resolve fs voice_dir = Some (Dir entries)
    /\ In (wav, x) entries
    /\ endswith wav (lit ".wav") = true
    /\ stem (child voice_dir wav) = v
    /\ (wav <> lit ".wav" -> wav = v ++ lit ".wav")
    /\ exists_ fs (joinpath voice_dir (v ++ lit ".txt")) = Returns true.
Proof.
  intros V H. apply variations_in_eq in V. destruct V as (wavs & G & ->).
  apply in_map_iff in H. destruct H as (f & <- & H).
  apply filter_In in H. destruct H as [Hf S].
  destruct (glob_suffix_in _ _ _ _ _ G Hf) as (entries & n & x & R & I & E & ->).
  exists entries, n, x. repeat split; auto.
  - intros Hn. destruct (endswith_inv _ _ E) as (pre & ->).
    rewrite stem_wav. destruct pre; [now elim Hn | reflexivity].
  - now apply found_true.
Qed.

(** Where a listed voice comes from. *)
Lemma scan_voices_in (fs : FS.t) (dirs : list PurePath)
    (voices : list VoiceEntry) (e : VoiceEntry) :
  scan_voices fs dirs = Returns voices ->
  In e voices ->
  exists d variations,
    In d dirs
    /\ is_dir fs d = Returns true
    /\ variations_in fs d = Returns variations
    /\ variations <> []
    /\ e = mkVoiceEntry (name d) variations.
Proof.
  intros H He. apply scan_voices_eq in H. subst voices.
  apply in_map_iff in He. destruct He as (d & <- & Hd).
  apply filter_In in Hd. destruct Hd as [Hin Hv]. unfold is_voice in Hv.
  apply andb_true_iff in Hv. destruct Hv as [Hdir Htr].
  apply found_true in Hdir. unfold listed_variations.
  destruct (variations_in fs d) as [vs|m] eqn:V; [|discriminate].
  exists d, vs.
  split; [exact Hin|]. split; [exact Hdir|]. split; [exact V|].
  split; [|reflexivity].
  destruct vs; [discriminate Htr | discriminate].
Qed.

(** C5: in every catalog that [/voices] returns, each listed voice is an
    immediate subdirectory of the storage root with at least one
    variation (a voice without a qualifying variation is left out), and
    each listed variation is the stem of a [*.wav] entry of that
    directory for which [<stem>.txt] exists in the same directory: a
    [.wav] without its sidecar is never listed. *)
Theorem list_voices_pairs_only (VOICES_DIR : pystr) (w : World)
    (voices : list VoiceEntry) :
  list_voices VOICES_DIR w = Response voices ->
  forall e, In e voices ->
    entry_variations e <> []
    /\ exists dirs voice_dir entries,
         iterdir (files w) (Path VOICES_DIR) = Returns dirs
         /\ In voice_dir dirs
         /\ resolve (files w) voice_dir = Some (Dir entries)
         /\ entry_voice_id e = name voice_dir
         /\ forall v, In v (entry_variations e) ->
              exists wav x,
                In (wav, x) entries
                /\ endswith wav (lit ".wav") = true
                /\ stem (child voice_dir wav) = v
                /\ (wav <> lit ".wav" -> wav = v ++ lit ".wav")
                /\ exists_ (files w)
                     (joinpath voice_dir (v ++ lit ".txt")) = Returns true.
Proof.
  unfold list_voices. intros H e He.
  destruct (exists_ (files w) (Path VOICES_DIR)) as [[|]|m0];
    simpl in H; try discriminate.
  2:{ inversion H; subst. destruct He. }
  destruct (iterdir (files w) (Path VOICES_DIR)) as [dirs|m] eqn:I;
    [|discriminate].
  destruct (scan_voices (files w) dirs) as [voices'|m] eqn:S;
    [|discriminate].
  inversion H; subst. clear H.
  destruct (scan_voices_in _ _ _ _ S He) as (d & vs & Hin & Hdir & V & Hne & ->).
  simpl. split; [exact Hne|].
  apply is_dir_true in Hdir. destruct Hdir as (entries & R).
  exists dirs, d, entries. repeat split; auto.
  intros v Hv. destruct (variations_in_sound _ _ _ _ V Hv)
    as (entries' & wav & x & R' & Hv').
  rewrite R in R'. inversion R'; subst. eauto.
Qed.

(** C5 at work: of [alice.wav], [formal.wav] (no sidecar), the empty voice
    and the stray file, only [alice]/[alice] is listed. *)
Lemma list_voices_pairs_only_witness :
  list_voices Scenario.VOICES_DIR Scenario.world
  = Response [mkVoiceEntry (lit "alice") [lit "alice"]]
  /\ entry_variations (mkVoiceEntry (lit "alice") [lit "alice"]) <> [].
Proof.
  split; [reflexivity|].
  apply (list_voices_pairs_only Scenario.VOICES_DIR Scenario.world
           [mkVoiceEntry (lit "alice") [lit "alice"]]
           eq_refl (mkVoiceEntry (lit "alice") [lit "alice"])
           (or_introl eq_refl)).
Defined.

(** ** The resolved seed *)

(** C2, refuted as stated: a draw that were uniform over the whole of
    0 .. 2^31 - 1 would yield 2^31 - 1 for some state of the generator;
    for the default seed -1 no state does, because [np.random.randint]
    leaves its upper bound out. *)
Lemma resolve_seed_never_draws_seed_max :
  ~ exists w : World, fst (resolve_seed (Some (-1)) w) = Returns seed_max.
Proof.
  intros (w & H). unfold resolve_seed in H.
  change ((-1 <? 0) || (-1 >? 2 ^ 31 - 1)) with true in H. cbv iota in H.
  rewrite randint_seed_range in H. simpl in H. inversion H as [E].
  pose proof (Z.mod_pos_bound (raw (np_random w) (consumed (np_random w)))
                seed_max eq_refl) as B.
  rewrite E in B. lia.
Qed.

(** C2, amended: a seed below 0 or above 2^31 - 1 (the default -1 among
    them) is replaced by a fresh draw of the generator, which lies between
    0 and 2^31 - 2, is the residue of the generator's raw value modulo
    2^31 - 1 (so that equally likely raw values give equally likely
    seeds) and consumes that raw value; a seed between 0 and 2^31 - 1 is
    used as it is and the generator is not touched. *)
Theorem resolve_seed_spec (s : Z) (w : World) :
  (s < 0 \/ s > seed_max ->
   exists v,
     resolve_seed (Some s) w
     = (Returns v,
        log (np_random_randint_call 0 seed_max)
            (with_np_random
               (mkRandomState (raw (np_random w))
                              (S (consumed (np_random w)))) w))
     /\ 0 <= v <= seed_max - 1
     /\ v = raw (np_random w) (consumed (np_random w)) mod seed_max)
  /\ (0 <= s <= seed_max -> resolve_seed (Some s) w = (Returns s, w)).
Proof.
  unfold resolve_seed. fold seed_max. split.
  - intros H.
    replace ((s <? 0) || (s >? seed_max)) with true.
    + exists (raw (np_random w) (consumed (np_random w)) mod seed_max).
      split; [apply randint_seed_range|]. split; auto.
      pose proof (Z.mod_pos_bound
                    (raw (np_random w) (consumed (np_random w)))
                    seed_max eq_refl). lia.
    + symmetry. apply orb_true_iff. rewrite Z.ltb_lt, Z.gtb_ltb, Z.ltb_lt.
      lia.
  - intros H.
    replace ((s <? 0) || (s >? seed_max)) with false; [reflexivity|].
    symmetry. apply orb_false_iff. rewrite Z.ltb_ge, Z.gtb_ltb, Z.ltb_ge.
    lia.
Qed.

(** C2 at work: the default seed -1 is replaced by the draw
    3000000000 mod (2^31 - 1); the seed 42 is kept. *)
Lemma resolve_seed_spec_witness :
  (-1 < 0 \/ -1 > seed_max)
  /\ (exists v, fst (resolve_seed (Some (-1)) Scenario.world) = Returns v
                /\ 0 <= v <= seed_max - 1)
  /\ 0 <= 42 <= seed_max
  /\ resolve_seed (Some 42) Scenario.world = (Returns 42, Scenario.world).
Proof.
  split; [left; reflexivity|]. split.
  - destruct (proj1 (resolve_seed_spec (-1) Scenario.world)
                (or_introl eq_refl)) as (v & R & B & _).
    exists v. rewrite R. split; [reflexivity | exact B].
  - split; [split; discriminate|].
    apply (proj2 (resolve_seed_spec 42 Scenario.world)).
    split; discriminate.
Defined.

(** ** Failures of [generate_speech] *)

(** C9, refuted as stated: a body with [seed] set to [null] for a voice
    that is not in the storage is answered with 404, not 500. *)
Lemma null_seed_unknown_voice :
  seed (Scenario.hello_null_seed (lit "bob")) = None
  /\ fst (generate_speech Scenario.VOICES_DIR Scenario.engine
            (Scenario.hello_null_seed (lit "bob")) Scenario.world)
     = HTTPException 404 (lit "Voice ID 'bob' not found")
  /\ status_of (fst (generate_speech Scenario.VOICES_DIR Scenario.engine
                       (Scenario.hello_null_seed (lit "bob")) Scenario.world))
     <> 500.
Proof. repeat split. discriminate. Qed.

(** C9, amended: for a request whose [seed] is [null], whose voice
    directory, reference audio and sidecar exist, whose text is not blank
    and whose sidecar is read, [/generate] raises [HTTPException] with
    status 500 and the detail [Model inference error: ] followed by the
    message of the failed comparison; the world is left as it was, so no
    seed is drawn and nothing is synthesised. *)
Theorem generate_speech_null_seed (VOICES_DIR : pystr) (lib : Environment)
    (request : GenerateRequest) (w : World) (s : pystr) :
  seed request = None ->
  files_present VOICES_DIR request w = true ->
  blank (text request) = false ->
  read_text (files w) (ref_text_path_of VOICES_DIR request) = Returns s ->
  generate_speech VOICES_DIR lib request w
  = (HTTPException 500
       (lit "Model inference error: '<' not supported between instances of 'NoneType' and 'int'"),
     w).
Proof.
  intros E F B R.
  rewrite (generate_speech_past_guards VOICES_DIR lib request w s F);
    auto; [|now rewrite text_missing_blank].
  unfold generate_speech_try, bind. rewrite E. reflexivity.
Qed.

(** C9 at work: [alice] with the text [Hello] and a null seed. *)
Lemma generate_speech_null_seed_witness :
  seed (Scenario.hello_null_seed (lit "alice")) = None
  /\ files_present Scenario.VOICES_DIR (Scenario.hello_null_seed (lit "alice"))
       Scenario.world = true
  /\ blank (text (Scenario.hello_null_seed (lit "alice"))) = false
  /\ read_text (files Scenario.world)
       (ref_text_path_of Scenario.VOICES_DIR
          (Scenario.hello_null_seed (lit "alice")))
     = Returns (lit " Some call me nature. ")
  /\ status_of (fst (generate_speech Scenario.VOICES_DIR Scenario.engine
                       (Scenario.hello_null_seed (lit "alice"))
                       Scenario.world)) = 500.
Proof.
  repeat (split; [reflexivity|]).
  rewrite (generate_speech_null_seed Scenario.VOICES_DIR Scenario.engine
             (Scenario.hello_null_seed (lit "alice")) Scenario.world
             (lit " Some call me nature. ")); reflexivity.
Defined.

(** C10, refuted as stated: [alice] is found with her audio and a
    sidecar, the text [Hello] passes the text validation, and then
    reading the sidecar raises, because it is a directory.  That
    exception, raised after the text validation succeeded, is not mapped:
    it leaves the handler as it is, without the status 500 of an
    [HTTPException] and without the prefix [Model inference error: ]. *)
Lemma sidecar_read_not_mapped :
  files_present Scenario.VOICES_DIR Scenario.hello Cases.sidecar_dir_world
  = true
  /\ text_missing Scenario.hello = false
  /\ read_text (files Cases.sidecar_dir_world)
       (ref_text_path_of Scenario.VOICES_DIR Scenario.hello)
     = Raises (lit "[Errno 21] Is a directory: 'data/voices/alice/alice.txt'")
  /\ generate_speech Scenario.VOICES_DIR Scenario.engine Scenario.hello
       Cases.sidecar_dir_world
     = (Unhandled
          (lit "[Errno 21] Is a directory: 'data/voices/alice/alice.txt'"),
        Cases.sidecar_dir_world)
  /\ forall d,
       fst (generate_speech Scenario.VOICES_DIR Scenario.engine
              Scenario.hello Cases.sidecar_dir_world)
       <> HTTPException 500 d.
Proof. repeat split. discriminate. Qed.

(** C10, amended: once the guards are passed and the sidecar is read, an
    exception raised in any stage of the [try] block (settling the seed,
    preprocessing the reference audio, inference, creating the temporary
    file, writing it) ends the request with [HTTPException] of status 500
    whose detail is [Model inference error: ] followed by the message of
    that exception. *)
Theorem generate_speech_try_failure (VOICES_DIR : pystr) (lib : Environment)
    (request : GenerateRequest) (w : World) (s m : pystr) :
  files_present VOICES_DIR request w = true ->
  blank (text request) = false ->
  read_text (files w) (ref_text_path_of VOICES_DIR request) = Returns s ->
  raised_in_try lib request (ref_audio_path_of VOICES_DIR request)
    (strip s) w m ->
  exists w',
    generate_speech VOICES_DIR lib request w
    = (HTTPException 500 (lit "Model inference error: " ++ m), w').
Proof.
  intros F B R H.
  rewrite (generate_speech_past_guards VOICES_DIR lib request w s F);
    auto; [|now rewrite text_missing_blank].
  apply (try_raises _ _ (variation_of request)) in H.
  destruct H as (w' & H). rewrite H. eauto.
Qed.

(** C10 at work: inference succeeds and the write of the temporary file
    fails; the reply carries the message of the write. *)
Lemma generate_speech_try_failure_witness :
  files_present Scenario.VOICES_DIR Scenario.hello Scenario.world = true
  /\ blank (text Scenario.hello) = false
  /\ read_text (files Scenario.world)
       (ref_text_path_of Scenario.VOICES_DIR Scenario.hello)
     = Returns (lit " Some call me nature. ")
  /\ raised_in_try Scenario.engine_disk_full Scenario.hello
       (ref_audio_path_of Scenario.VOICES_DIR Scenario.hello)
       (strip (lit " Some call me nature. ")) Scenario.world
       (lit "Error opening file: System error.")
  /\ exists w',
       generate_speech Scenario.VOICES_DIR Scenario.engine_disk_full
         Scenario.hello Scenario.world
       = (HTTPException 500
            (lit "Model inference error: "
               ++ lit "Error opening file: System error."), w').
Proof.
  assert (H : raised_in_try Scenario.engine_disk_full Scenario.hello
                (ref_audio_path_of Scenario.VOICES_DIR Scenario.hello)
                (strip (lit " Some call me nature. ")) Scenario.world
                (lit "Error opening file: System error.")).
  { eapply raised_by_write; reflexivity. }
  repeat (split; [reflexivity|]). split; [exact H|].
  apply (generate_speech_try_failure Scenario.VOICES_DIR
           Scenario.engine_disk_full Scenario.hello Scenario.world
           (lit " Some call me nature. ")
           (lit "Error opening file: System error."));
    try reflexivity. exact H.
Defined.

(** ** Resolution of voice and variation *)

(** C4, refuted as stated: [alice] has its [alice.wav] / [alice.txt] pair
    and the request leaves the variation out, yet an empty text makes the
    generation fail with 400. *)
Lemma default_variation_pair_not_enough :
  variation Scenario.no_text = None
  /\ files_present Scenario.VOICES_DIR Scenario.no_text Scenario.world = true
  /\ generate_speech Scenario.VOICES_DIR Scenario.engine Scenario.no_text
       Scenario.world
     = (HTTPException 400
          (lit "Text parameter is required and cannot be empty"),
        Scenario.world).
Proof. repeat split. Qed.

(** C4, amended: for a request that leaves the variation out, the
    variation is the voice_id, and the generation succeeds exactly when
    the voice directory, [<voice_id>.wav] and [<voice_id>.txt] under it
    exist, the text is not blank, the sidecar is read, and every stage of
    the [try] block returns. *)
Theorem generate_speech_default_variation (VOICES_DIR : pystr)
    (lib : Environment) (request : GenerateRequest) (w : World) :
  variation request = None ->
  let voice_dir := joinpath (Path VOICES_DIR) (voice_id request) in
  let wav := joinpath voice_dir (voice_id request ++ lit ".wav") in
  let txt := joinpath voice_dir (voice_id request ++ lit ".txt") in
  variation_of request = voice_id request
  /\ ((exists r w',
         generate_speech VOICES_DIR lib request w = (Response r, w'))
      <-> exists_ (files w) voice_dir = Returns true
          /\ exists_ (files w) wav = Returns true
          /\ exists_ (files w) txt = Returns true
          /\ blank (text request) = false
          /\ exists s, read_text (files w) txt = Returns s
                       /\ stages_return lib request wav (strip s) w).
Proof.
  intros V voice_dir wav txt.
  assert (Hv : variation_of request = voice_id request)
    by (unfold variation_of; now rewrite V).
  assert (Hw : ref_audio_path_of VOICES_DIR request = wav)
    by (unfold ref_audio_path_of; now rewrite Hv).
  assert (Ht : ref_text_path_of VOICES_DIR request = txt)
    by (unfold ref_text_path_of; now rewrite Hv).
  split; [exact Hv|]. split.
  - intros (r & w' & G). apply generate_speech_response_inv in G.
    destruct G as (F & T & s & R & G).
    apply files_present_true in F. rewrite Hw, Ht in F.
    destruct F as (F1 & F2 & F3).
    rewrite text_missing_blank in T. rewrite Hw in G. rewrite Ht in R.
    repeat split; auto. exists s. split; auto.
    apply (try_returns_iff lib request (variation_of request)). eauto.
  - intros (F1 & F2 & F3 & B & s & R & S).
    apply (try_returns lib request (variation_of request)) in S.
    destruct S as (r & w' & S). exists r, w'.
    rewrite (generate_speech_past_guards VOICES_DIR lib request w s).
    + rewrite Hw. now rewrite S.
    + apply files_present_true. rewrite Hw, Ht. auto.
    + now rewrite text_missing_blank.
    + now rewrite Ht.
Qed.

(** C4 at work: [alice] with the text [Hello] and no variation. *)
Lemma generate_speech_default_variation_witness :
  variation Scenario.hello = None
  /\ variation_of Scenario.hello = lit "alice"
  /\ exists r w',
       generate_speech Scenario.VOICES_DIR Scenario.engine Scenario.hello
         Scenario.world = (Response r, w').
Proof.
  split; [reflexivity|].
  destruct (generate_speech_default_variation Scenario.VOICES_DIR
              Scenario.engine Scenario.hello Scenario.world eq_refl)
    as [Hv Hiff].
  split; [exact Hv|].
  apply Hiff. repeat (split; [reflexivity|]).
  exists (lit " Some call me nature. "). split; [reflexivity|].
  unfold stages_return. do 6 eexists. repeat split; reflexivity.
Defined.

(** C3, refuted as stated: a request with the empty voice_id and the
    variation [alice/alice] is not rejected; its voice directory is the
    storage root, under which [alice/alice.wav] and [alice/alice.txt]
    lie, and speech is generated. *)
Lemma empty_voice_id_accepted :
  voice_id Scenario.nameless = []
  /\ fst (generate_speech Scenario.VOICES_DIR Scenario.engine
            Scenario.nameless Scenario.world)
     = Response (mkFileResponse 1%N (lit "audio/wav")
                   (lit "_alice/alice.wav") (Some (unlink_later 1%N))).
Proof. split; reflexivity. Qed.

(** C3, amended: for a request with the empty voice_id no check of the
    voice_id is made.  Its voice directory is the storage root itself and
    it goes through the guards like any other request: 404 naming the
    empty voice_id when the storage root does not exist, and 400 only
    when the existence checks have passed and the text is blank. *)
Theorem generate_speech_empty_voice_id (VOICES_DIR : pystr)
    (lib : Environment) (request : GenerateRequest) (w : World) :
  voice_id request = [] ->
  voice_dir_of VOICES_DIR request = Path VOICES_DIR
  /\ (exists_ (files w) (Path VOICES_DIR) = Returns false ->
      generate_speech VOICES_DIR lib request w
      = (HTTPException 404 (lit "Voice ID '' not found"), w))
  /\ (forall d w',
        generate_speech VOICES_DIR lib request w = (HTTPException 400 d, w') ->
        files_present VOICES_DIR request w = true
        /\ blank (text request) = true).
Proof.
  intros E.
  assert (Hd : voice_dir_of VOICES_DIR request = Path VOICES_DIR)
    by (unfold voice_dir_of; rewrite E; apply joinpath_empty).
  split; [exact Hd|]. split.
  - intros H. unfold generate_speech. rewrite Hd, H, E. reflexivity.
  - intros d w'. unfold generate_speech, files_present.
    destruct (exists_ (files w) (voice_dir_of VOICES_DIR request))
      as [[|]|e1]; try discriminate.
    destruct (exists_ (files w) (ref_audio_path_of VOICES_DIR request))
      as [[|]|e2]; try discriminate.
    destruct (exists_ (files w) (ref_text_path_of VOICES_DIR request))
      as [[|]|e3]; try discriminate.
    simpl. rewrite <- text_missing_blank.
    destruct (text_missing request); [auto|].
    destruct (read_text (files w) (ref_text_path_of VOICES_DIR request));
      [|discriminate].
    destruct (generate_speech_try lib request (variation_of request)
                (ref_audio_path_of VOICES_DIR request) (strip a) w)
      as [[r|e] w0]; discriminate.
Qed.

(** C3 at work: the empty voice_id on a machine without storage root. *)
Lemma generate_speech_empty_voice_id_witness :
  voice_id Scenario.nameless = []
  /\ voice_dir_of Scenario.VOICES_DIR Scenario.nameless
     = Path Scenario.VOICES_DIR
  /\ generate_speech Scenario.VOICES_DIR Scenario.engine Scenario.nameless
       Scenario.bare_world
     = (HTTPException 404 (lit "Voice ID '' not found"), Scenario.bare_world).
Proof.
  split; [reflexivity|].
  destruct (generate_speech_empty_voice_id Scenario.VOICES_DIR
              Scenario.engine Scenario.nameless Scenario.bare_world eq_refl)
    as (Hd & H404 & _).
  split; [exact Hd | exact (H404 eq_refl)].
Defined.

(** ** The temporary file *)

Lemma fresh_tmp_above (l : list tmp_path) (x : tmp_path) :
  In x l -> (x < fresh_tmp l)%N.
Proof.
  unfold fresh_tmp. induction l as [|y l IH]; simpl; [tauto|].
  intros [->|H]; [|specialize (IH H)]; lia.
Qed.

Lemma unlink_fresh (l : list tmp_path) :
  filter (fun g => negb (tmp_eqb (fresh_tmp l) g)) (l ++ [fresh_tmp l]) = l.
Proof.
  rewrite filter_app. simpl. unfold tmp_eqb at 2. rewrite N.eqb_refl. simpl.
  rewrite app_nil_r. apply forallb_filter_id. apply forallb_forall.
  intros x Hx. apply fresh_tmp_above in Hx.
  apply negb_true_iff, N.eqb_neq. lia.
Qed.

Lemma fresh_tmp_listed (l : list tmp_path) :
  existsb (tmp_eqb (fresh_tmp l)) (l ++ [fresh_tmp l]) = true.
Proof.
  rewrite existsb_app. simpl. unfold tmp_eqb at 2. rewrite N.eqb_refl.
  now rewrite orb_true_r.
Qed.

(** Settling the seed touches no temporary file. *)
Lemma resolve_seed_tmp_files (seed : option Z) (w w' : World) (o : outcome Z) :
  resolve_seed seed w = (o, w') -> tmp_files w' = tmp_files w.
Proof.
  unfold resolve_seed, raise, ret. destruct seed as [s|].
  - destruct ((s <? 0) || (s >? 2 ^ 31 - 1)).
    + rewrite randint_seed_range. intros H. now inversion H.
    + intros H. now inversion H.
  - intros H. now inversion H.
Qed.

(** A response of the [try] block names the one temporary file the block
    created, and registers its deletion as the background callback. *)
Lemma try_response_shape (lib : Environment) (request : GenerateRequest)
    (variation : pystr) (p : PurePath) (t : pystr) (w w' : World)
    (r : FileResponse) :
  generate_speech_try lib request variation p t w = (Returns r, w') ->
  path r = fresh_tmp (tmp_files w)
  /\ background r = Some (unlink_later (path r))
  /\ tmp_files w' = tmp_files w ++ [path r].
Proof.
  run_try.
  destruct (resolve_seed (seed request) w) as [[s|e] w1] eqn:S;
    [|discriminate].
  apply resolve_seed_tmp_files in S.
  destruct (preprocess_ref_audio_text lib (str p) t) as [[a t']|e];
    [|discriminate].
  simpl.
  destruct (infer_process lib s a t' (text request)
              (cross_fade_duration request) (nfe_step request)
              (speed request)) as [[[wave rate] spec]|e]; [|discriminate].
  destruct (NamedTemporaryFile_error lib); [discriminate|]. simpl.
  destruct (sf_write lib wave rate) as [[]|e]; [|discriminate].
  intros H. inversion H; subst. simpl. rewrite S. auto.
Qed.

(** The path that does clean up: after a response, calling its background
    callback deletes the temporary file, and the store of temporary files
    is what it was before the request. *)
Lemma generate_speech_cleanup_after_send (VOICES_DIR : pystr)
    (lib : Environment) (request : GenerateRequest) (w w' : World)
    (r : FileResponse) :
  generate_speech VOICES_DIR lib request w = (Response r, w') ->
  exists w'',
    run_background r w' = (Returns tt, w'')
    /\ tmp_files w'' = tmp_files w.
Proof.
  intros G. apply generate_speech_response_inv in G.
  destruct G as (_ & _ & s & _ & G).
  apply try_response_shape in G. destruct G as (P & B & T).
  unfold run_background. rewrite B. unfold os_unlink.
  rewrite T, P, fresh_tmp_listed.
  eexists. split; [reflexivity|]. simpl. apply unlink_fresh.
Qed.

(** The path that does not: when the temporary file is created and the
    write into it raises, the request ends with the file still in the
    store. *)
Lemma write_failure_leaks (lib : Environment) (request : GenerateRequest)
    (variation : pystr) (p : PurePath) (t : pystr) (w : World)
    (s : Z) (a t' : pystr) (wave : ndarray) (rate : Z) (spec : ndarray)
    (m : pystr) :
  seed_used request w = Some s ->
  preprocess_ref_audio_text lib (str p) t = Returns (a, t') ->
  infer_process lib s a t' (text request) (cross_fade_duration request)
    (nfe_step request) (speed request) = Returns (wave, rate, spec) ->
  NamedTemporaryFile_error lib = None ->
  sf_write lib wave rate = Raises m ->
  exists w',
    generate_speech_try lib request variation p t w = (Raises m, w')
    /\ tmp_files w' = tmp_files w ++ [fresh_tmp (tmp_files w)]
    /\ existsb is_unlink (calls w') = existsb is_unlink (calls w).
Proof.
  intros S P I T W. apply seed_used_some in S. destruct S as (w1 & S).
  run_try. rewrite S, P. simpl. rewrite I, T. simpl. rewrite W.
  eexists. split; [reflexivity|]. simpl.
  pose proof (resolve_seed_tmp_files _ _ _ _ S) as E. rewrite E.
  split; auto.
  repeat rewrite existsb_app. simpl. repeat rewrite orb_false_r.
  revert S. unfold resolve_seed, raise, ret.
  destruct (seed request) as [s0|]; [|discriminate].
  destruct ((s0 <? 0) || (s0 >? 2 ^ 31 - 1)).
  - rewrite randint_seed_range. intros H. inversion H. simpl.
    rewrite existsb_app. simpl. now rewrite orb_false_r.
  - intros H. now inversion H.
Qed.

(** C1, where the code falls short of it: [alice] exists, the text is
    [Hello], inference returns, the temporary file is created, and
    writing the samples raises.  The request ends with status 500; the
    temporary file (the first, in a store that was empty) is still there,
    no call to [os.unlink] was made, and the reply, an exception, carries
    no callback that could make one. *)
Theorem generate_speech_leaks_on_write_failure :
  tmp_files Scenario.world = []
  /\ fst (generate_speech Scenario.VOICES_DIR Scenario.engine_disk_full
            Scenario.hello Scenario.world)
     = HTTPException 500
         (lit "Model inference error: Error opening file: System error.")
  /\ tmp_files (snd (generate_speech Scenario.VOICES_DIR
                       Scenario.engine_disk_full Scenario.hello
                       Scenario.world))
     = [1%N]
  /\ existsb is_unlink
       (calls (snd (generate_speech Scenario.VOICES_DIR
                      Scenario.engine_disk_full Scenario.hello
                      Scenario.world)))
     = false.
Proof. repeat split. Qed.

(** * Further properties of the handlers *)

(** ** Runs of the [try] block *)

(** Case analysis over the stages of the [try] block, in order. *)
Ltac try_stages_cases lib request p t w :=
  run_try;
  let S := fresh "S" in
  destruct (resolve_seed (seed request) w) as [[?s|?e] ?w1] eqn:S;
  [ destruct (preprocess_ref_audio_text lib (str p) t) as [[?a ?t']|?e];
    simpl;
    [ destruct (infer_process lib _ _ _ _ _ _ _) as [[[?wave ?rate] ?spec]|?e];
      [ destruct (NamedTemporaryFile_error lib) eqn:?T; simpl;
        [ | destruct (sf_write lib _ _) as [[]|?e] eqn:?W ]
      | ]
    | ]
  | ].

Lemma resolve_seed_files (seed : option Z) (w w' : World) (o : outcome Z) :
  resolve_seed seed w = (o, w') -> files w' = files w.
Proof.
  unfold resolve_seed, raise, ret. destruct seed as [s|].
  - destruct ((s <? 0) || (s >? 2 ^ 31 - 1)).
    + rewrite randint_seed_range. intros H. now inversion H.
    + intros H. now inversion H.
  - intros H. now inversion H.
Qed.

(** The [try] block leaves the directory tree alone. *)
Lemma try_files (lib : Environment) (request : GenerateRequest)
    (variation : pystr) (p : PurePath) (t : pystr) (w w' : World)
    (o : outcome FileResponse) :
  generate_speech_try lib request variation p t w = (o, w') ->
  files w' = files w.
Proof.
  try_stages_cases lib request p t w;
    apply resolve_seed_files in S;
    intros H; inversion H; subst; simpl; exact S.
Qed.

(** ** The guards *)

(** X1: when the existence check of the voice directory returns [True]
    and the one of the reference audio of the resolved variation returns
    [False], [/generate] raises [HTTPException] with status 404 naming
    the variation and the voice; when the second check raises (the
    operating system refuses the path as too long), the exception is let
    through.  The world is unchanged either way. *)
Theorem generate_speech_unknown_variation (VOICES_DIR : pystr)
    (lib : Environment) (request : GenerateRequest) (w : World) :
  exists_ (files w) (voice_dir_of VOICES_DIR request) = Returns true ->
  (exists_ (files w) (ref_audio_path_of VOICES_DIR request) = Returns false ->
   generate_speech VOICES_DIR lib request w
   = (HTTPException 404
        (lit "Variation '" ++ variation_of request
           ++ lit "' not found for voice '" ++ voice_id request ++ lit "'"),
      w))
  /\ (forall e,
        exists_ (files w) (ref_audio_path_of VOICES_DIR request) = Raises e ->
        generate_speech VOICES_DIR lib request w = (Unhandled e, w)).
Proof.
  intros D. unfold generate_speech. rewrite D. split.
  - intros A. rewrite A. reflexivity.
  - intros e A. rewrite A. reflexivity.
Qed.

(** X2: when the existence checks of the voice directory and of the
    reference audio return [True] and the one of the sidecar of the
    resolved variation returns [False], [/generate] raises
    [HTTPException] with status 404 naming the variation whose reference
    text is missing; the world is unchanged. *)
Theorem generate_speech_missing_sidecar (VOICES_DIR : pystr)
    (lib : Environment) (request : GenerateRequest) (w : World) :
  exists_ (files w) (voice_dir_of VOICES_DIR request) = Returns true ->
  exists_ (files w) (ref_audio_path_of VOICES_DIR request) = Returns true ->
  exists_ (files w) (ref_text_path_of VOICES_DIR request) = Returns false ->
  generate_speech VOICES_DIR lib request w
  = (HTTPException 404
       (lit "Reference text file not found for variation '"
          ++ variation_of request ++ lit "'"),
     w).
Proof.
  intros D A T. unfold generate_speech. rewrite D, A, T. reflexivity.
Qed.

(** Case analysis over the guards of [generate_speech], the read of the
    sidecar and the outcome of the [try] block. *)
Ltac guards_cases VOICES_DIR lib request w :=
  unfold generate_speech;
  destruct (exists_ (files w) (voice_dir_of VOICES_DIR request))
    as [[|]|?e] eqn:?D;
  [ destruct (exists_ (files w) (ref_audio_path_of VOICES_DIR request))
      as [[|]|?e] eqn:?A;
    [ destruct (exists_ (files w) (ref_text_path_of VOICES_DIR request))
        as [[|]|?e] eqn:?T;
      [ destruct (text_missing request) eqn:?B;
        [ | destruct (read_text (files w) (ref_text_path_of VOICES_DIR request))
              as [?s|?e] eqn:?R;
            [ destruct (generate_speech_try lib request (variation_of request)
                          (ref_audio_path_of VOICES_DIR request) (strip s) w)
                as [[?r|?e] ?w0] eqn:?G
            | ] ]
      | | ]
    | | ]
  | | ]; simpl.

(** X3: [/generate] ends with status 200, 400, 404 or 500 and no other;
    with 400 or 404 the world is as it was before the request (no seed
    drawn, no call into the library, no temporary file); the directory
    tree is the same after every request. *)
Theorem generate_speech_statuses (VOICES_DIR : pystr) (lib : Environment)
    (request : GenerateRequest) (w : World) :
  let run := generate_speech VOICES_DIR lib request w in
  In (status_of (fst run)) [200; 400; 404; 500]
  /\ (status_of (fst run) = 400 \/ status_of (fst run) = 404 -> snd run = w)
  /\ files (snd run) = files w.
Proof.
  guards_cases VOICES_DIR lib request w;
    try (apply try_files in G);
    (split; [tauto|]); (split; [|auto]);
    intros [H|H]; auto; discriminate.
Qed.

(** ** Temporary files and the response *)

Lemma fresh_tmp_new (l : list tmp_path) : ~ In (fresh_tmp l) l.
Proof. intros H. apply fresh_tmp_above in H. lia. Qed.

Lemma fresh_tmp_unlisted (l : list tmp_path) :
  existsb (tmp_eqb (fresh_tmp l)) l = false.
Proof.
  destruct (existsb (tmp_eqb (fresh_tmp l)) l) eqn:E; auto.
  apply existsb_exists in E. destruct E as (x & Hx & E).
  apply N.eqb_eq in E. subst x. now apply fresh_tmp_new in Hx.
Qed.

(** When every write returns, a [try] block that raises leaves the store
    of temporary files as it found it. *)
Lemma try_no_residue (lib : Environment) (request : GenerateRequest)
    (variation : pystr) (p : PurePath) (t : pystr) (w w' : World)
    (m : pystr) :
  (forall wave rate, sf_write lib wave rate = Returns tt) ->
  generate_speech_try lib request variation p t w = (Raises m, w') ->
  tmp_files w' = tmp_files w.
Proof.
  intros Hw. try_stages_cases lib request p t w;
    apply resolve_seed_tmp_files in S;
    intros H; inversion H; subst; simpl; try exact S.
  rewrite Hw in W. discriminate.
Qed.

(** X4: the failed write is the only way to leave a temporary file
    behind: with a [soundfile] whose writes all return, every request
    that does not end with status 200 leaves the store of temporary files
    as it was. *)
Theorem generate_speech_no_residue (VOICES_DIR : pystr) (lib : Environment)
    (request : GenerateRequest) (w : World) :
  (forall wave rate, sf_write lib wave rate = Returns tt) ->
  status_of (fst (generate_speech VOICES_DIR lib request w)) <> 200 ->
  tmp_files (snd (generate_speech VOICES_DIR lib request w)) = tmp_files w.
Proof.
  intros Hw. guards_cases VOICES_DIR lib request w; intros H; auto.
  - now elim H.
  - now apply (try_no_residue _ _ _ _ _ _ _ _ Hw) in G.
Qed.

(** X5: a response of [/generate] has media type [audio/wav] and the
    file name [<voice_id>_<variation>.wav]; its body is a temporary file
    that did not exist before the request and is the only one the request
    added; and its background callback deletes that very file. *)
Theorem generate_speech_response (VOICES_DIR : pystr) (lib : Environment)
    (request : GenerateRequest) (w w' : World) (r : FileResponse) :
  generate_speech VOICES_DIR lib request w = (Response r, w') ->
  media_type r = lit "audio/wav"
  /\ filename r
     = voice_id request ++ lit "_" ++ variation_of request ++ lit ".wav"
  /\ ~ In (path r) (tmp_files w)
  /\ tmp_files w' = tmp_files w ++ [path r]
  /\ background r = Some (unlink_later (path r)).
Proof.
  intros G. apply generate_speech_response_inv in G.
  destruct G as (_ & _ & s & _ & G).
  destruct (try_response_shape _ _ _ _ _ _ _ _ G) as (P & B & T).
  assert (N : ~ In (path r) (tmp_files w))
    by (rewrite P; apply fresh_tmp_new).
  repeat split; auto; revert G;
    try_stages_cases lib request
      (ref_audio_path_of VOICES_DIR request) (strip s) w;
    intros H; inversion H; reflexivity.
Qed.

(** X6: after a response, the first call of its background callback
    deletes the temporary file and restores the store of temporary files;
    a second call raises, the file being gone. *)
Theorem background_callback_once (VOICES_DIR : pystr) (lib : Environment)
    (request : GenerateRequest) (w w' : World) (r : FileResponse) :
  generate_speech VOICES_DIR lib request w = (Response r, w') ->
  exists w'',
    run_background r w' = (Returns tt, w'')
    /\ tmp_files w'' = tmp_files w
    /\ fst (run_background r w'')
       = Raises (lit "[Errno 2] No such file or directory").
Proof.
  intros G.
  destruct (generate_speech_cleanup_after_send _ _ _ _ _ _ G)
    as (w'' & R & T).
  exists w''. repeat split; auto.
  apply generate_speech_response_inv in G.
  destruct G as (_ & _ & s & _ & G).
  apply try_response_shape in G. destruct G as (P & B & _).
  unfold run_background. rewrite B. unfold os_unlink.
  rewrite T, P, fresh_tmp_unlisted. reflexivity.
Qed.

(** ** Seeding *)

Lemma seed_in_range_guard (s : Z) :
  (s <? 0) || (s >? 2 ^ 31 - 1) = negb (seed_in_range s).
Proof.
  unfold seed_in_range, seed_max. rewrite negb_andb, Z.gtb_ltb.
  now rewrite <- Z.ltb_antisym, <- Z.ltb_antisym.
Qed.

(** The two ways the seed step returns. *)
Lemma resolve_seed_cases (s0 : Z) (w : World) :
  resolve_seed (Some s0) w
  = if seed_in_range s0 then (Returns s0, w)
    else (Returns (raw (np_random w) (consumed (np_random w)) mod seed_max),
          log (np_random_randint_call 0 seed_max)
              (with_np_random
                 (mkRandomState (raw (np_random w))
                                (S (consumed (np_random w)))) w)).
Proof.
  unfold resolve_seed. rewrite seed_in_range_guard.
  destruct (seed_in_range s0); simpl; [reflexivity|].
  apply randint_seed_range.
Qed.

Lemma residue_in_range (z : Z) : seed_in_range (z mod seed_max) = true.
Proof.
  pose proof (Z.mod_pos_bound z seed_max eq_refl).
  unfold seed_in_range. apply andb_true_iff.
  rewrite Z.leb_le, Z.leb_le. lia.
Qed.

(** X7: a request answered with a response carried an integer seed; torch
    was seeded, before anything else was asked of the library, with a
    value between 0 and 2^31 - 1, which is the seed of the request when
    that is in range (then the numpy generator is not consulted) and a
    single draw of the generator otherwise; then the reference audio was
    preprocessed, inference was run, the temporary file was created and
    written, in this order and each once. *)
Theorem generate_speech_call_order (VOICES_DIR : pystr) (lib : Environment)
    (request : GenerateRequest) (w w' : World) (r : FileResponse) :
  generate_speech VOICES_DIR lib request w = (Response r, w') ->
  exists s0 sidecar a t,
    seed request = Some s0
    /\ read_text (files w) (ref_text_path_of VOICES_DIR request)
       = Returns sidecar
    /\ seed_in_range (torch_seed w') = true
    /\ (seed_in_range s0 = true -> torch_seed w' = s0)
    /\ consumed (np_random w')
       = (consumed (np_random w)
          + if seed_in_range s0 then 0 else 1)%nat
    /\ calls w'
       = calls w
         ++ (if seed_in_range s0 then []
             else [np_random_randint_call 0 seed_max])
         ++ calls_after_seed (torch_seed w')
              (str (ref_audio_path_of VOICES_DIR request)) (strip sidecar)
              a t (text request) (path r).
Proof.
  intros G. apply generate_speech_response_inv in G.
  destruct G as (_ & _ & sidecar & R & G).
  destruct (seed request) as [s0|] eqn:E.
  2:{ revert G. unfold generate_speech_try, bind. rewrite E.
      discriminate. }
  exists s0, sidecar. revert G.
  try_stages_cases lib request
    (ref_audio_path_of VOICES_DIR request) (strip sidecar) w;
    intros H; inversion H; subst; clear H. simpl.
  exists a, t'. rewrite E in S. rewrite resolve_seed_cases in S.
  split; [reflexivity|]. split; [exact R|].
  unfold calls_after_seed.
  destruct (seed_in_range s0) eqn:I; inversion S; subst; simpl.
  - split; [exact I|]. split; [reflexivity|].
    split; [now rewrite Nat.add_0_r|].
    repeat rewrite <- app_assoc. reflexivity.
  - split; [apply residue_in_range|]. split; [discriminate|].
    split; [now rewrite Nat.add_1_r|].
    repeat rewrite <- app_assoc. reflexivity.
Qed.

(** X8: with a seed in range the reply does not depend on the state of
    the numpy generator, on torch's earlier seed or on the calls made so
    far: two worlds with the same directory tree and the same temporary
    files give the same reply, and the generator is left untouched. *)
Theorem generate_speech_valid_seed_deterministic (VOICES_DIR : pystr)
    (lib : Environment) (request : GenerateRequest) (w1 w2 : World)
    (s : Z) :
  seed request = Some s ->
  seed_in_range s = true ->
  files w1 = files w2 ->
  tmp_files w1 = tmp_files w2 ->
  fst (generate_speech VOICES_DIR lib request w1)
  = fst (generate_speech VOICES_DIR lib request w2)
  /\ np_random (snd (generate_speech VOICES_DIR lib request w1))
     = np_random w1.
Proof.
  intros E I F T. unfold generate_speech. rewrite F.
  destruct (exists_ (files w2) (voice_dir_of VOICES_DIR request))
    as [[|]|e1]; simpl; [|auto|auto].
  destruct (exists_ (files w2) (ref_audio_path_of VOICES_DIR request))
    as [[|]|e2]; simpl; [|auto|auto].
  destruct (exists_ (files w2) (ref_text_path_of VOICES_DIR request))
    as [[|]|e3]; simpl; [|auto|auto].
  destruct (text_missing request); [auto|].
  destruct (read_text (files w2) (ref_text_path_of VOICES_DIR request))
    as [sidecar|e]; [|auto].
  run_try. rewrite E. rewrite !resolve_seed_cases, I.
  destruct (preprocess_ref_audio_text lib
              (str (ref_audio_path_of VOICES_DIR request)) (strip sidecar))
    as [[a t]|e]; simpl; [|auto].
  destruct (infer_process lib s a t (text request)
              (cross_fade_duration request) (nfe_step request)
              (speed request)) as [[[wave rate] spec]|e]; [|auto].
  destruct (NamedTemporaryFile_error lib); simpl; [auto|].
  destruct (sf_write lib wave rate) as [[]|e]; simpl; [|auto].
  rewrite T. auto.
Qed.

(** ** Resolution of the paths *)

Lemma joinpath_absolute (p : PurePath) (s : pystr) :
  starts_with_slash s = true -> joinpath p s = Path s.
Proof. intros H. unfold joinpath. simpl. now rewrite H. Qed.

(** X9: a voice_id that starts with [/] takes the handler out of the
    storage root: the voice directory is the voice_id read as a path of
    its own, and the reply is the same whatever [VOICES_DIR] is. *)
Theorem generate_speech_absolute_voice_id (V1 V2 : pystr)
    (lib : Environment) (request : GenerateRequest) (w : World) :
  starts_with_slash (voice_id request) = true ->
  voice_dir_of V1 request = Path (voice_id request)
  /\ generate_speech V1 lib request w = generate_speech V2 lib request w.
Proof.
  intros H.
  assert (D : forall V, voice_dir_of V request = Path (voice_id request))
    by (intros V; now apply joinpath_absolute).
  split; [apply D|].
  unfold generate_speech, ref_audio_path_of, ref_text_path_of.
  now rewrite (D V1), (D V2).
Qed.

(** X10: a variation given as the empty string is treated as a variation
    left out: the reply and the world after the request are those of the
    same request without variation. *)
Theorem generate_speech_empty_variation (VOICES_DIR : pystr)
    (lib : Environment) (request : GenerateRequest) (w : World) :
  variation request = Some [] ->
  variation_of request = voice_id request
  /\ generate_speech VOICES_DIR lib request w
     = generate_speech VOICES_DIR lib (with_variation None request) w.
Proof.
  intros H.
  assert (V : variation_of request = voice_id request)
    by (unfold variation_of; now rewrite H).
  split; [exact V|].
  unfold generate_speech, ref_audio_path_of, ref_text_path_of, voice_dir_of.
  rewrite V. reflexivity.
Qed.

(** ** The catalog *)

Lemma iterdir_returns (fs : FS.t) (p : PurePath) (dirs : list PurePath) :
  iterdir fs p = Returns dirs ->
  exists es,
    resolve fs p = Some (Dir es)
    /\ dirs = map (fun e => child p (fst e)) es.
Proof.
  unfold iterdir, resolve. destruct (stat fs p) as [[c|es]| | |];
    intros H; inversion H. eauto.
Qed.

(** Every iteration of a loop that returned did return. *)
Lemma loop_returns {A B} (step : list B -> A -> outcome (list B))
    (xs : list A) :
  forall acc out,
    fold_left
      (fun acc x =>
         match acc with
         | Raises e => Raises e
         | Returns l => step l x
         end) xs (Returns acc)
    = Returns out ->
    forall x, In x xs -> exists l l', step l x = Returns l'.
Proof.
  induction xs as [|a xs IH]; intros acc out H x Hx; [destruct Hx|].
  simpl in H. destruct (step acc a) as [l1|e] eqn:E.
  - destruct Hx as [<-|Hx]; [eauto | exact (IH _ _ H x Hx)].
  - rewrite loop_raised in H. discriminate.
Qed.

(** In a scan that returned, the inner loop of every directory
    returned. *)
Lemma scan_voices_inner (fs : FS.t) (dirs : list PurePath)
    (voices : list VoiceEntry) (d : PurePath) :
  scan_voices fs dirs = Returns voices ->
  In d dirs ->
  is_dir fs d = Returns true ->
  exists variations, variations_in fs d = Returns variations.
Proof.
  unfold scan_voices. intros H Hd Hdir.
  destruct (loop_returns
              (fun voices voice_dir =>
                 match is_dir fs voice_dir with
                 | Raises e => Raises e
                 | Returns false => Returns voices
                 | Returns true =>
                     match variations_in fs voice_dir with
                     | Raises e => Raises e
                     | Returns variations =>
                         if truthy variations
                         then Returns (voices ++ [mkVoiceEntry (name voice_dir)
                                                    variations])
                         else Returns voices
                     end
                 end) dirs [] voices H d Hd) as (l & l' & S).
  rewrite Hdir in S.
  destruct (variations_in fs d) as [vs|e]; [eauto | discriminate].
Qed.

(** The catalog of a storage root that is a directory. *)
Lemma list_voices_of_dir (VOICES_DIR : pystr) (w : World)
    (es : list (pystr * node)) :
  resolve (files w) (Path VOICES_DIR) = Some (Dir es) ->
  list_voices VOICES_DIR w
  = match
      scan_voices (files w)
        (map (fun e => child (Path VOICES_DIR) (fst e)) es)
    with
    | Raises e => Unhandled e
    | Returns voices => Response voices
    end.
Proof.
  intros R. apply resolve_found in R.
  unfold list_voices, exists_, iterdir. rewrite R. reflexivity.
Qed.

(** Where a listed voice comes from. *)
Lemma list_voices_inv (VOICES_DIR : pystr) (w : World)
    (voices : list VoiceEntry) (e : VoiceEntry) :
  list_voices VOICES_DIR w = Response voices ->
  In e voices ->
  exists es n x variations,
    resolve (files w) (Path VOICES_DIR) = Some (Dir es)
    /\ In (n, x) es
    /\ is_dir (files w) (child (Path VOICES_DIR) n) = Returns true
    /\ variations_in (files w) (child (Path VOICES_DIR) n)
       = Returns variations
    /\ e = mkVoiceEntry n variations.
Proof.
  unfold list_voices. intros H He.
  destruct (exists_ (files w) (Path VOICES_DIR)) as [[|]|m0];
    simpl in H; try discriminate.
  2:{ inversion H; subst. destruct He. }
  destruct (iterdir (files w) (Path VOICES_DIR)) as [dirs|m] eqn:I;
    [|discriminate].
  destruct (scan_voices (files w) dirs) as [voices'|m] eqn:S;
    [|discriminate].
  inversion H; subst. clear H.
  apply iterdir_returns in I. destruct I as (es & R & ->).
  destruct (scan_voices_in _ _ _ _ S He) as (d & vs & Hin & Hdir & V & _ & ->).
  apply in_map_iff in Hin. destruct Hin as ([n x] & <- & Hin). simpl in *.
  exists es, n, x, vs. rewrite name_child. auto.
Qed.

Lemma endswith_app (pre suffix : pystr) :
  endswith (pre ++ suffix) suffix = true.
Proof.
  unfold endswith. rewrite length_app. apply andb_true_iff. split.
  - apply Nat.leb_le. lia.
  - replace (List.length pre + List.length suffix - List.length suffix)%nat
      with (List.length pre + 0)%nat by lia.
    rewrite skipn_app, Nat.add_0_r, skipn_all.
    replace (List.length pre - List.length pre)%nat with 0%nat by lia.
    simpl. now apply eqb_eq.
Qed.

(** X11: a catalog misses no pair.  When [/voices] returns a catalog, the
    storage root is a directory, one of its entries is a directory, that
    directory has an entry [<v>.wav] with [v] not empty, and the check of
    [<v>.txt] beside it returns [True], then the catalog lists the voice
    under the name of its directory with [v] among its variations. *)
Theorem list_voices_complete (VOICES_DIR : pystr) (w : World)
    (voices : list VoiceEntry)
    (es entries : list (pystr * node)) (n v : pystr) (x y : node) :
  list_voices VOICES_DIR w = Response voices ->
  resolve (files w) (Path VOICES_DIR) = Some (Dir es) ->
  In (n, x) es ->
  resolve (files w) (child (Path VOICES_DIR) n) = Some (Dir entries) ->
  In (v ++ lit ".wav", y) entries ->
  v <> [] ->
  exists_ (files w)
    (joinpath (child (Path VOICES_DIR) n) (v ++ lit ".txt")) = Returns true ->
  exists e,
    In e voices
    /\ entry_voice_id e = n
    /\ In v (entry_variations e).
Proof.
  intros L R Hn Rd Hv Hne Ht.
  set (d := child (Path VOICES_DIR) n) in *.
  rewrite (list_voices_of_dir _ _ _ R) in L.
  destruct (scan_voices (files w)
              (map (fun e => child (Path VOICES_DIR) (fst e)) es))
    as [voices'|m] eqn:S; [|discriminate].
  inversion L; subst voices'. clear L.
  assert (Hd : In d (map (fun e => child (Path VOICES_DIR) (fst e)) es))
    by (apply (in_map (fun e => child (Path VOICES_DIR) (fst e)) _ (n, x) Hn)).
  assert (Hdir : is_dir (files w) d = Returns true)
    by (apply is_dir_true; eauto).
  destruct (scan_voices_inner _ _ _ _ S Hd Hdir) as (vs & V).
  assert (St : stem (child d (v ++ lit ".wav")) = v)
    by (rewrite stem_wav; destruct v; [now elim Hne | reflexivity]).
  assert (Iv : In v vs).
  { destruct (variations_in_eq _ _ _ V) as (wavs & G & ->).
    apply in_map_iff.
    exists (child d (v ++ lit ".wav")). split; [exact St|].
    apply filter_In. split.
    - unfold glob_suffix in G. apply resolve_found in Rd. rewrite Rd in G.
      inversion G.
      apply (in_map (fun e => child d (fst e)) _ (v ++ lit ".wav", y)).
      apply filter_In. split; [exact Hv|]. simpl. apply endswith_app.
    - unfold has_sidecar. rewrite St, Ht. reflexivity. }
  exists (mkVoiceEntry (name d) vs).
  split; [|split; [apply name_child | exact Iv]].
  rewrite (scan_voices_eq _ _ _ S).
  replace vs with (listed_variations (files w) d)
    by (unfold listed_variations; now rewrite V).
  apply (in_map (fun d => mkVoiceEntry (name d)
                            (listed_variations (files w) d))).
  apply filter_In. split; [exact Hd|].
  unfold is_voice. rewrite Hdir, V. simpl.
  destruct vs; [destruct Iv | reflexivity].
Qed.

(** X12: [/voices] answers with a catalog exactly when the check of the
    storage root returns [False], or the root is a directory and no check
    of the scan raises; when the root is a regular file the handler lets
    the error of [iterdir] through (status 500). *)
Theorem list_voices_answers (VOICES_DIR : pystr) (w : World) :
  ((exists voices, list_voices VOICES_DIR w = Response voices)
   <-> exists_ (files w) (Path VOICES_DIR) = Returns false
       \/ exists es voices,
            resolve (files w) (Path VOICES_DIR) = Some (Dir es)
            /\ scan_voices (files w)
                 (map (fun e => child (Path VOICES_DIR) (fst e)) es)
               = Returns voices)
  /\ (forall c,
        resolve (files w) (Path VOICES_DIR) = Some (File c) ->
        list_voices VOICES_DIR w
        = Unhandled (lit "[Errno 20] Not a directory: "
                       ++ quoted (Path VOICES_DIR))).
Proof.
  unfold list_voices, exists_, iterdir, resolve.
  destruct (stat (files w) (Path VOICES_DIR)) as [[c|es]| | |]; simpl.
  - split; [split|].
    + intros (v & H). discriminate.
    + intros [H|(es & v & H & _)]; discriminate.
    + intros c' H. reflexivity.
  - split; [split|].
    + intros (v & H).
      destruct (scan_voices (files w)
                  (map (fun e => child (Path VOICES_DIR) (fst e)) es))
        as [voices|m] eqn:S; [|discriminate].
      right. exists es, voices. auto.
    + intros [H|(es' & v & H & S)]; [discriminate|].
      inversion H; subst es'. rewrite S. eauto.
    + intros c H. discriminate.
  - split; [split|]; eauto. intros c H. discriminate.
  - split; [split|].
    + intros (v & H). discriminate.
    + intros [H|(es & v & H & _)]; discriminate.
    + intros c H. discriminate.
  - split; [split|]; eauto. intros c H. discriminate.
Qed.

Lemma NoDup_map_filter {A B} (f : A -> B) (keep : A -> bool) (l : list A) :
  NoDup (map f l) -> NoDup (map f (filter keep l)).
Proof.
  induction l as [|a l IH]; simpl; intros H; [constructor|].
  inversion H as [|? ? Hn Hd]; subst.
  destruct (keep a); simpl; auto.
  constructor; auto.
  intros Hin. apply Hn. apply in_map_iff in Hin.
  destruct Hin as (b & E & Hb). apply filter_In in Hb.
  apply in_map_iff. exists b. tauto.
Qed.

(** X13: the catalog lists the voices in the order of the entries of the
    storage root, under the names of these entries; when no two entries
    share a name, no voice is listed twice. *)
Theorem list_voices_order (VOICES_DIR : pystr) (w : World)
    (es : list (pystr * node)) (voices : list VoiceEntry) :
  resolve (files w) (Path VOICES_DIR) = Some (Dir es) ->
  list_voices VOICES_DIR w = Response voices ->
  map entry_voice_id voices
  = map fst
      (filter (fun e => is_voice (files w) (child (Path VOICES_DIR) (fst e)))
              es)
  /\ (NoDup (map fst es) -> NoDup (map entry_voice_id voices)).
Proof.
  intros R H. rewrite (list_voices_of_dir _ _ _ R) in H.
  destruct (scan_voices (files w)
              (map (fun e => child (Path VOICES_DIR) (fst e)) es))
    as [voices'|m] eqn:S; [|discriminate].
  inversion H; subst voices'. clear H.
  rewrite (scan_voices_eq _ _ _ S). clear S R.
  assert (Q : map entry_voice_id
                (map (fun d => mkVoiceEntry (name d)
                                 (listed_variations (files w) d))
                   (filter (is_voice (files w))
                      (map (fun e => child (Path VOICES_DIR) (fst e)) es)))
              = map fst
                  (filter (fun e => is_voice (files w)
                                      (child (Path VOICES_DIR) (fst e))) es)).
  { induction es as [|[n x] es IH]; simpl; auto.
    destruct (is_voice (files w) (child (Path VOICES_DIR) n)); simpl; auto.
    now rewrite IH, name_child. }
  split; [exact Q|].
  intros Hd. rewrite Q. now apply NoDup_map_filter.
Qed.

(** ** Catalog and generation on a well-formed tree *)

Lemma tree_ok_dir (es : list (pystr * node)) :
  tree_ok (Dir es)
  = forallb (fun e => entry_name_ok (fst e) && tree_ok (snd e)) es.
Proof.
  induction es as [|[m y] es IH]; simpl; auto.
  simpl in IH. now rewrite IH.
Qed.

Lemma tree_ok_entry (es : list (pystr * node)) (n : pystr) (x : node) :
  tree_ok (Dir es) = true -> In (n, x) es ->
  entry_name_ok n = true /\ tree_ok x = true.
Proof.
  rewrite tree_ok_dir, forallb_forall. intros H Hin.
  specialize (H _ Hin). simpl in H. now apply andb_true_iff in H.
Qed.

Lemma lookup_in (n : pystr) (es : list (pystr * node)) (x : node) :
  lookup n es = Some x -> In (n, x) es.
Proof.
  induction es as [|[m y] es IH]; simpl; [discriminate|].
  destruct (PyStr.eqb m n) eqn:E.
  - apply eqb_eq in E. intros H. inversion H; subst. now left.
  - auto.
Qed.

Lemma in_lookup (n : pystr) (es : list (pystr * node)) (x : node) :
  In (n, x) es -> exists y, lookup n es = Some y.
Proof.
  induction es as [|[m y] es IH]; simpl; [tauto|].
  intros [H|H].
  - inversion H; subst.
    replace (PyStr.eqb n n) with true by (symmetry; now apply eqb_eq).
    eauto.
  - destruct (PyStr.eqb m n); eauto.
Qed.

(** Resolution stays inside a well-formed tree. *)
Lemma walk_ok (comps : list pystr) :
  forall stack cur x,
    forallb tree_ok stack = true -> tree_ok cur = true ->
    walk stack cur comps = Found x -> tree_ok x = true.
Proof.
  induction comps as [|c rest IH]; intros stack cur x Hs Hc; simpl.
  - intros H. inversion H; subst. exact Hc.
  - destruct cur as [f|es]; [discriminate|].
    destruct (NAME_MAX <? byte_len c); [discriminate|].
    destruct (PyStr.eqb c dotdot).
    + destruct stack as [|parent st]; [now apply IH|].
      simpl in Hs. apply andb_true_iff in Hs. destruct Hs.
      now apply IH.
    + destruct (lookup c es) as [n|] eqn:L; [|discriminate].
      apply lookup_in in L.
      destruct (tree_ok_entry _ _ _ Hc L) as [_ Hn].
      apply IH; auto. cbn [forallb]. now rewrite Hc, Hs.
Qed.

Lemma resolve_ok (fs : FS.t) (p : PurePath) (x : node) :
  tree_ok (root fs) = true -> resolve fs p = Some x -> tree_ok x = true.
Proof.
  intros H R. apply resolve_found in R. revert R. unfold stat.
  destruct (negb (encodable (str p))); [discriminate|].
  destruct (PATH_MAX <=? byte_len (str p)); [discriminate|].
  destruct (absolute p); now apply walk_ok.
Qed.

(** One more component after a directory was reached. *)
Lemma walk_snoc (comps : list pystr) (c : pystr) (es : list (pystr * node)) :
  forall stack cur,
    walk stack cur comps = Found (Dir es) ->
    PyStr.eqb c dotdot = false ->
    byte_len c <= NAME_MAX ->
    walk stack cur (comps ++ [c])
    = match lookup c es with Some n => Found n | None => Missing end.
Proof.
  induction comps as [|c0 rest IH]; intros stack cur H D B; simpl in *.
  - inversion H; subst.
    replace (NAME_MAX <? byte_len c) with false
      by (symmetry; apply Z.ltb_ge; exact B).
    rewrite D. now destruct (lookup c es).
  - destruct cur as [f|es0]; [discriminate|].
    destruct (NAME_MAX <? byte_len c0); [discriminate|].
    destruct (PyStr.eqb c0 dotdot).
    + destruct stack as [|parent st]; now apply IH.
    + destruct (lookup c0 es0); [now apply IH | discriminate].
Qed.

Lemma entry_name_ok_inv (n : pystr) :
  entry_name_ok n = true ->
  is_empty n = false /\ has_slash n = false
  /\ PyStr.eqb n [dot] = false /\ PyStr.eqb n dotdot = false
  /\ encodable n = true /\ byte_len n <= NAME_MAX.
Proof.
  unfold entry_name_ok.
  rewrite !andb_true_iff, !negb_true_iff, Z.leb_le. tauto.
Qed.

Lemma byte_len_app (a b : pystr) : byte_len (a ++ b) = byte_len a + byte_len b.
Proof. induction a as [|c a IH]; simpl; [reflexivity | rewrite IH; lia]. Qed.

Lemma join_with_snoc (sep : char) (l : list pystr) (n : pystr) :
  join_with sep (l ++ [n])
  = match l with
    | [] => n
    | _ :: _ => join_with sep l ++ sep :: n
    end.
Proof.
  induction l as [|a l IH]; [reflexivity|].
  destruct l as [|b l]; [reflexivity|].
  change (join_with sep ((a :: b :: l) ++ [n]))
    with (a ++ sep :: join_with sep ((b :: l) ++ [n])).
  rewrite IH.
  change (join_with sep (a :: b :: l)) with (a ++ sep :: join_with sep (b :: l)).
  now rewrite <- app_assoc.
Qed.

(** How the path of a directory entry is written. *)
Lemma str_child (p : PurePath) (n : pystr) :
  is_empty n = false -> str (child p n) = child_prefix p ++ n.
Proof.
  intros Hn. unfold str, child, child_prefix. cbn [absolute parts two_slashes].
  assert (J : forall a l,
             join_with slash ((a :: l) ++ [n])
             = (join_with slash (a :: l) ++ [slash]) ++ n).
  { intros a l. rewrite join_with_snoc, <- app_assoc. reflexivity. }
  destruct (absolute p); destruct (parts p) as [|a l].
  - cbn [app join_with]. now rewrite app_nil_r.
  - rewrite J. now rewrite <- !app_assoc.
  - reflexivity.
  - cbn [app]. change (a :: l ++ [n]) with ((a :: l) ++ [n]).
    rewrite J. reflexivity.
Qed.

(** What [os.stat] asks of a path before it looks at the tree. *)
Lemma stat_fits (fs : FS.t) (p : PurePath) (x : node) :
  stat fs p = Found x ->
  encodable (str p) = true /\ byte_len (str p) < PATH_MAX.
Proof.
  unfold stat.
  destruct (encodable (str p)); simpl; [|discriminate].
  destruct (PATH_MAX <=? byte_len (str p)) eqn:L; [discriminate|].
  apply Z.leb_gt in L. auto.
Qed.

(** Two sibling names of the same length, both made of bytes: if the path
    of one fits, so does the path of the other. *)
Lemma sibling_fits (p : PurePath) (a b : pystr) :
  is_empty a = false -> is_empty b = false ->
  encodable b = true -> byte_len b = byte_len a ->
  encodable (str (child p a)) = true /\ byte_len (str (child p a)) < PATH_MAX ->
  encodable (str (child p b)) = true /\ byte_len (str (child p b)) < PATH_MAX.
Proof.
  intros Ha Hb Eb Lb. rewrite !str_child by assumption.
  unfold encodable. rewrite !forallb_app, !byte_len_app, Lb.
  intros [E L]. apply andb_true_iff in E. destruct E as [E _].
  split; [|exact L]. apply andb_true_iff. split; [exact E | exact Eb].
Qed.

(** An entry of a directory that [os.stat] found, under the path
    [iterdir] and [glob] give it. *)
Lemma stat_child (fs : FS.t) (p : PurePath) (es : list (pystr * node))
    (n : pystr) :
  stat fs p = Found (Dir es) ->
  PyStr.eqb n dotdot = false ->
  byte_len n <= NAME_MAX ->
  encodable (str (child p n)) = true ->
  byte_len (str (child p n)) < PATH_MAX ->
  stat fs (child p n)
  = match lookup n es with Some y => Found y | None => Missing end.
Proof.
  intros R D B E L. unfold stat in *. rewrite E.
  replace (PATH_MAX <=? byte_len (str (child p n))) with false
    by (symmetry; apply Z.leb_gt; exact L).
  simpl negb. cbv iota.
  destruct (negb (encodable (str p))); [discriminate|].
  destruct (PATH_MAX <=? byte_len (str p)); [discriminate|].
  unfold child. simpl.
  destruct (absolute p).
  - now apply walk_snoc.
  - rewrite app_assoc. now apply walk_snoc.
Qed.

Lemma split_no_slash (n : pystr) :
  has_slash n = false -> split slash n = [n].
Proof.
  unfold has_slash. induction n as [|a n IH]; simpl; auto.
  intros H. apply orb_false_iff in H. destruct H as [Ha Hn].
  rewrite Ha, (IH Hn). reflexivity.
Qed.

(** Joining one component appends it. *)
Lemma joinpath_component (p : PurePath) (n : pystr) :
  is_empty n = false -> has_slash n = false -> PyStr.eqb n [dot] = false ->
  joinpath p n = child p n.
Proof.
  intros He Hs Hd. unfold joinpath, Path, child.
  rewrite (split_no_slash n Hs). simpl.
  unfold keeps. rewrite He, Hd. simpl.
  destruct n as [|a n]; [discriminate He|].
  simpl in *. apply orb_false_iff in Hs. destruct Hs as [Ha _].
  now rewrite Ha.
Qed.

(** Joining the name of a directory entry appends it as one component. *)
Lemma joinpath_entry (p : PurePath) (n : pystr) :
  entry_name_ok n = true -> joinpath p n = child p n.
Proof.
  intros H. apply entry_name_ok_inv in H.
  destruct H as (He & Hs & Hd & _). now apply joinpath_component.
Qed.

Lemma has_slash_app (a b : pystr) :
  has_slash (a ++ b) = has_slash a || has_slash b.
Proof. apply existsb_app. Qed.

Lemma is_empty_app_r (a b : pystr) : is_empty b = false -> is_empty (a ++ b) = false.
Proof. destruct a; simpl; auto. Qed.

Lemma eqb_dot_long (a b : pystr) :
  (2 <= List.length b)%nat -> PyStr.eqb (a ++ b) [dot] = false.
Proof.
  intros H. destruct (PyStr.eqb (a ++ b) [dot]) eqn:E; auto.
  apply eqb_eq in E. apply (f_equal (@List.length _)) in E.
  rewrite length_app in E. simpl in E. lia.
Qed.

(** X14: on a tree whose entry names are names a file system allows,
    every pair the catalog lists is one [/generate] finds: for a listed
    voice and one of its variations other than the bare [.wav], a request
    that names them (the variation given, or left out when it equals the
    voice_id) passes the three existence checks, so it is not answered
    with 404. *)
Theorem listed_pair_is_found (VOICES_DIR : pystr) (lib : Environment)
    (w : World) (voices : list VoiceEntry) (e : VoiceEntry) (v : pystr)
    (request : GenerateRequest) :
  tree_ok (root (files w)) = true ->
  list_voices VOICES_DIR w = Response voices ->
  In e voices ->
  In v (entry_variations e) ->
  v <> lit ".wav" ->
  voice_id request = entry_voice_id e ->
  variation_of request = v ->
  files_present VOICES_DIR request w = true
  /\ status_of (fst (generate_speech VOICES_DIR lib request w)) <> 404.
Proof.
  intros Ok H He Hv Hw Hid Hvar.
  destruct (list_voices_inv _ _ _ _ H He)
    as (es & n & x & vs & R & Hn & Hd & V & ->).
  simpl in Hid, Hv.
  pose proof (resolve_ok _ _ _ Ok R) as OkR.
  destruct (tree_ok_entry _ _ _ OkR Hn) as [Nn _].
  set (d := child (Path VOICES_DIR) n) in *.
  assert (Dv : voice_dir_of VOICES_DIR request = d)
    by (unfold voice_dir_of; rewrite Hid; now apply joinpath_entry).
  destruct (variations_in_sound _ _ _ _ V Hv)
    as (entries & wav & y & Rd & Hin & _ & St & Hwav & Ht).
  pose proof (resolve_ok _ _ _ Ok Rd) as OkD.
  destruct (tree_ok_entry _ _ _ OkD Hin) as [Nw _].
  assert (Ew : wav = v ++ lit ".wav").
  { apply Hwav. intros ->.
    apply Hw. rewrite <- St. apply (stem_wav d []). }
  apply entry_name_ok_inv in Nw.
  destruct Nw as (We & Ws & Wd & Wdd & Wenc & Wlen).
  assert (Vs : has_slash v = false).
  { rewrite Ew, has_slash_app in Ws. now apply orb_false_iff in Ws. }
  assert (Tj : joinpath d (v ++ lit ".txt") = child d (v ++ lit ".txt")).
  { apply joinpath_component.
    - now apply is_empty_app_r.
    - rewrite has_slash_app, Vs. reflexivity.
    - apply eqb_dot_long. simpl. lia. }
  assert (F : files_present VOICES_DIR request w = true).
  { apply files_present_true.
    unfold ref_audio_path_of, ref_text_path_of. rewrite Dv, Hvar.
    split; [apply exists_true; eauto|]. split; [|exact Ht].
    rewrite <- Ew, (joinpath_component d wav We Ws Wd).
    apply exists_true in Ht. destruct Ht as (t & Ht).
    apply resolve_found, stat_fits in Ht. rewrite Tj in Ht.
    destruct (sibling_fits d (v ++ lit ".txt") wav) as [Fe Fl]; auto.
    - now apply is_empty_app_r.
    - rewrite Ew, !byte_len_app. reflexivity.
    - destruct (in_lookup _ _ _ Hin) as (y' & L).
      apply exists_true. exists y'. apply resolve_found.
      apply resolve_found in Rd.
      rewrite (stat_child _ _ _ _ Rd Wdd Wlen Fe Fl), L. reflexivity. }
  split; [exact F|].
  apply files_present_true in F. destruct F as (F1 & F2 & F3).
  unfold generate_speech. rewrite F1, F2, F3.
  destruct (text_missing request); [discriminate|].
  destruct (read_text (files w) (ref_text_path_of VOICES_DIR request));
    [|discriminate].
  destruct (generate_speech_try lib request (variation_of request)
              (ref_audio_path_of VOICES_DIR request) (strip a) w)
    as [[r|m] w0]; discriminate.
Qed.

(** ** Startup and health *)

(** X15: starting with no model loaded, [/health] reports
    [model_loaded] after [startup_event] exactly when [startup_event]
    returned; it then holds the vocoder too.  When a loader raises, the
    answer is still [status: ok], with [model_loaded] false. *)
Theorem health_after_startup (ld : Startup.Loaders) (g : Startup.Models) :
  Startup.ema_model g = None ->
  let g' := snd (Startup.startup_event ld g) in
  (Startup.model_loaded (Startup.health_check g') = true
   <-> fst (Startup.startup_event ld g) = Returns tt)
  /\ (Startup.model_loaded (Startup.health_check g') = true ->
      Startup.vocoder g' <> None)
  /\ Startup.status (Startup.health_check g') = lit "ok".
Proof.
  intros E. unfold Startup.startup_event, Startup.health_check.
  destruct (Startup.load_vocoder ld) as [v|e]; simpl.
  - destruct (Startup.cached_path ld _) as [ckpt|e]; simpl.
    + destruct (Startup.load_model ld _ ckpt) as [m|e]; simpl.
      * repeat split; auto; discriminate.
      * rewrite E. repeat split; discriminate.
    + rewrite E. repeat split; discriminate.
  - rewrite E. repeat split; discriminate.
Qed.

(** X15 at work: loaders that all return. *)
Lemma health_after_startup_witness :
  Startup.ema_model Startup.unloaded = None
  /\ Startup.model_loaded
       (Startup.health_check
          (snd (Startup.startup_event Cases.loaders Startup.unloaded)))
     = true.
Proof.
  split; [reflexivity|].
  destruct (health_after_startup Cases.loaders Startup.unloaded eq_refl)
    as (H & _ & _).
  apply (proj2 H). reflexivity.
Defined.

(** ** The error tests of the client *)

(** X16: against a server that runs [generate_speech],
    [test_error_empty_text] passes exactly when the storage holds the
    voice [test_voice] with the variation of the same name, that is
    [test_voice/test_voice.wav] and [test_voice/test_voice.txt]: without
    them the empty text is never looked at and the answer is 404. *)
Theorem test_error_empty_text_passes (VOICES_DIR : pystr)
    (lib : Environment) (w : World) :
  TestApi.test_error_empty_text (TestApi.post_generate VOICES_DIR lib w)
  = true
  <-> files_present VOICES_DIR
        (GenerateRequest_defaults (lit "test_voice") []) w = true.
Proof.
  unfold TestApi.test_error_empty_text, TestApi.post_generate.
  change (TestApi.GenerateRequest_of_body
            [(lit "voice_id", lit "test_voice"); (lit "text", [])])
    with (Some (GenerateRequest_defaults (lit "test_voice") [])).
  cbv iota beta. unfold files_present.
  guards_cases VOICES_DIR lib (GenerateRequest_defaults (lit "test_voice") []) w;
    try discriminate; split; auto; discriminate.
Qed.

(** X16 at work: the storage of the test suite. *)
Lemma test_error_empty_text_passes_witness :
  files_present Scenario.VOICES_DIR
    (GenerateRequest_defaults (lit "test_voice") []) Cases.test_world = true
  /\ TestApi.test_error_empty_text
       (TestApi.post_generate Scenario.VOICES_DIR Scenario.engine
          Cases.test_world) = true.
Proof.
  split; [reflexivity|].
  apply (proj2 (test_error_empty_text_passes Scenario.VOICES_DIR
                  Scenario.engine Cases.test_world)).
  reflexivity.
Defined.

(** X17: against a server that runs [generate_speech],
    [test_error_invalid_voice] passes exactly when the check of one of the
    voice directory [nonexistent_voice], its [nonexistent_voice.wav] and
    its [nonexistent_voice.txt] returns [False], the checks before it
    having returned [True]. *)
Theorem test_error_invalid_voice_passes (VOICES_DIR : pystr)
    (lib : Environment) (w : World) :
  TestApi.test_error_invalid_voice (TestApi.post_generate VOICES_DIR lib w)
  = true
  <-> files_missing VOICES_DIR
        (GenerateRequest_defaults (lit "nonexistent_voice")
           (lit "This should fail")) w = true.
Proof.
  unfold TestApi.test_error_invalid_voice, TestApi.post_generate.
  change (TestApi.GenerateRequest_of_body
            [(lit "voice_id", lit "nonexistent_voice");
             (lit "text", lit "This should fail")])
    with (Some (GenerateRequest_defaults (lit "nonexistent_voice")
                  (lit "This should fail"))).
  cbv iota beta. unfold files_missing.
  guards_cases VOICES_DIR lib
    (GenerateRequest_defaults (lit "nonexistent_voice")
       (lit "This should fail")) w;
    split; intros H; first [reflexivity | discriminate H].
Qed.

(** X17 at work: the storage of the test suite has no such voice. *)
Lemma test_error_invalid_voice_passes_witness :
  files_missing Scenario.VOICES_DIR
    (GenerateRequest_defaults (lit "nonexistent_voice")
       (lit "This should fail")) Cases.test_world = true
  /\ TestApi.test_error_invalid_voice
       (TestApi.post_generate Scenario.VOICES_DIR Scenario.engine
          Cases.test_world) = true.
Proof.
  split; [reflexivity|].
  apply (proj2 (test_error_invalid_voice_passes Scenario.VOICES_DIR
                  Scenario.engine Cases.test_world)).
  reflexivity.
Defined.

(** ** The further properties at work *)

(** X1 at work: [alice] has no variation [casual]; and a variation of
    300 letters. *)
Lemma generate_speech_unknown_variation_witness :
  exists_ (files Scenario.world)
    (voice_dir_of Scenario.VOICES_DIR (Cases.alice_as (lit "casual")))
  = Returns true
  /\ exists_ (files Scenario.world)
       (ref_audio_path_of Scenario.VOICES_DIR (Cases.alice_as (lit "casual")))
     = Returns false
  /\ generate_speech Scenario.VOICES_DIR Scenario.engine
       (Cases.alice_as (lit "casual")) Scenario.world
     = (HTTPException 404
          (lit "Variation 'casual' not found for voice 'alice'"),
        Scenario.world)
  /\ status_of
       (fst (generate_speech Scenario.VOICES_DIR Scenario.engine
               (Cases.alice_as Cases.long_name) Scenario.world))
     = 500.
Proof.
  split; [reflexivity|]. split; [reflexivity|]. split.
  - apply (proj1 (generate_speech_unknown_variation Scenario.VOICES_DIR
                    Scenario.engine (Cases.alice_as (lit "casual"))
                    Scenario.world eq_refl)).
    reflexivity.
  - rewrite (proj2 (generate_speech_unknown_variation Scenario.VOICES_DIR
                      Scenario.engine (Cases.alice_as Cases.long_name)
                      Scenario.world eq_refl)
                   (name_too_long
                      (ref_audio_path_of Scenario.VOICES_DIR
                         (Cases.alice_as Cases.long_name)))
                   eq_refl).
    reflexivity.
Defined.

(** X2 at work: [formal.wav] exists, [formal.txt] does not. *)
Lemma generate_speech_missing_sidecar_witness :
  exists_ (files Scenario.world)
    (ref_audio_path_of Scenario.VOICES_DIR (Cases.alice_as (lit "formal")))
  = Returns true
  /\ exists_ (files Scenario.world)
       (ref_text_path_of Scenario.VOICES_DIR (Cases.alice_as (lit "formal")))
     = Returns false
  /\ generate_speech Scenario.VOICES_DIR Scenario.engine
       (Cases.alice_as (lit "formal")) Scenario.world
     = (HTTPException 404
          (lit "Reference text file not found for variation 'formal'"),
        Scenario.world).
Proof.
  split; [reflexivity|]. split; [reflexivity|].
  apply (generate_speech_missing_sidecar Scenario.VOICES_DIR
           Scenario.engine (Cases.alice_as (lit "formal")) Scenario.world);
    reflexivity.
Defined.

(** X3 at work: the empty text is answered with 400 and changes
    nothing. *)
Lemma generate_speech_statuses_witness :
  status_of (fst (generate_speech Scenario.VOICES_DIR Scenario.engine
                    Scenario.no_text Scenario.world)) = 400
  /\ snd (generate_speech Scenario.VOICES_DIR Scenario.engine
            Scenario.no_text Scenario.world) = Scenario.world.
Proof.
  split; [reflexivity|].
  destruct (generate_speech_statuses Scenario.VOICES_DIR Scenario.engine
              Scenario.no_text Scenario.world) as (_ & H & _).
  apply H. left. reflexivity.
Defined.

(** X4 at work: inference runs out of memory; no temporary file
    stays. *)
Lemma generate_speech_no_residue_witness :
  (forall wave rate, sf_write Cases.engine_out_of_memory wave rate = Returns tt)
  /\ status_of (fst (generate_speech Scenario.VOICES_DIR
                       Cases.engine_out_of_memory Scenario.hello
                       Scenario.world)) = 500
  /\ tmp_files (snd (generate_speech Scenario.VOICES_DIR
                       Cases.engine_out_of_memory Scenario.hello
                       Scenario.world))
     = tmp_files Scenario.world.
Proof.
  split; [reflexivity|]. split; [reflexivity|].
  apply (generate_speech_no_residue Scenario.VOICES_DIR
           Cases.engine_out_of_memory Scenario.hello Scenario.world).
  - reflexivity.
  - discriminate.
Defined.

(** X5 at work: [alice] with the text [Hello]. *)
Lemma generate_speech_response_witness :
  generate_speech Scenario.VOICES_DIR Scenario.engine Scenario.hello
    Scenario.world
  = (Response (mkFileResponse 1%N (lit "audio/wav") (lit "alice_alice.wav")
                 (Some (unlink_later 1%N))),
     snd (generate_speech Scenario.VOICES_DIR Scenario.engine Scenario.hello
            Scenario.world))
  /\ tmp_files (snd (generate_speech Scenario.VOICES_DIR Scenario.engine
                       Scenario.hello Scenario.world))
     = tmp_files Scenario.world ++ [1%N].
Proof.
  split; [reflexivity|].
  apply (generate_speech_response Scenario.VOICES_DIR Scenario.engine
           Scenario.hello Scenario.world _
           (mkFileResponse 1%N (lit "audio/wav") (lit "alice_alice.wav")
              (Some (unlink_later 1%N)))).
  reflexivity.
Defined.

(** X6 at work: the callback of the response to [Hello], called twice. *)
Lemma background_callback_once_witness :
  exists w'',
    run_background
      (mkFileResponse 1%N (lit "audio/wav") (lit "alice_alice.wav")
         (Some (unlink_later 1%N)))
      (snd (generate_speech Scenario.VOICES_DIR Scenario.engine
              Scenario.hello Scenario.world))
    = (Returns tt, w'')
    /\ tmp_files w'' = tmp_files Scenario.world.
Proof.
  destruct (background_callback_once Scenario.VOICES_DIR Scenario.engine
              Scenario.hello Scenario.world
              (snd (generate_speech Scenario.VOICES_DIR Scenario.engine
                      Scenario.hello Scenario.world))
              (mkFileResponse 1%N (lit "audio/wav") (lit "alice_alice.wav")
                 (Some (unlink_later 1%N)))
              eq_refl) as (w'' & R & T & _).
  exists w''. split; [exact R | exact T].
Defined.

(** X7 at work: the default seed -1 makes the one draw. *)
Lemma generate_speech_call_order_witness :
  exists s0,
    seed Scenario.hello = Some s0
    /\ seed_in_range
         (torch_seed (snd (generate_speech Scenario.VOICES_DIR
                             Scenario.engine Scenario.hello Scenario.world)))
       = true.
Proof.
  destruct (generate_speech_call_order Scenario.VOICES_DIR Scenario.engine
              Scenario.hello Scenario.world
              (snd (generate_speech Scenario.VOICES_DIR Scenario.engine
                      Scenario.hello Scenario.world))
              (mkFileResponse 1%N (lit "audio/wav") (lit "alice_alice.wav")
                 (Some (unlink_later 1%N)))
              eq_refl) as (s0 & sidecar & a & t & E & _ & I & _).
  exists s0. split; [exact E | exact I].
Defined.

(** X8 at work: the seed 7 in the world of the scenarios and in a later
    one. *)
Lemma generate_speech_valid_seed_deterministic_witness :
  seed Cases.seeded = Some 7
  /\ seed_in_range 7 = true
  /\ files Scenario.world = files Cases.later_world
  /\ tmp_files Scenario.world = tmp_files Cases.later_world
  /\ fst (generate_speech Scenario.VOICES_DIR Scenario.engine Cases.seeded
            Scenario.world)
     = fst (generate_speech Scenario.VOICES_DIR Scenario.engine Cases.seeded
              Cases.later_world).
Proof.
  repeat (split; [reflexivity|]).
  apply (generate_speech_valid_seed_deterministic Scenario.VOICES_DIR
           Scenario.engine Cases.seeded Scenario.world Cases.later_world 7);
    reflexivity.
Defined.

(** X9 at work: [alice] by the absolute path of her directory, under a
    storage root that does not exist. *)
Lemma generate_speech_absolute_voice_id_witness :
  starts_with_slash (voice_id Cases.by_path) = true
  /\ generate_speech (lit "no/such/root") Scenario.engine Cases.by_path
       Scenario.world
     = generate_speech Scenario.VOICES_DIR Scenario.engine Cases.by_path
         Scenario.world.
Proof.
  split; [reflexivity|].
  apply (generate_speech_absolute_voice_id (lit "no/such/root")
           Scenario.VOICES_DIR Scenario.engine Cases.by_path Scenario.world).
  reflexivity.
Defined.

(** X10 at work: [alice] with the variation given as the empty string. *)
Lemma generate_speech_empty_variation_witness :
  variation (Cases.alice_as []) = Some []
  /\ variation_of (Cases.alice_as []) = lit "alice".
Proof.
  split; [reflexivity|].
  apply (generate_speech_empty_variation Scenario.VOICES_DIR Scenario.engine
           (Cases.alice_as []) Scenario.world).
  reflexivity.
Defined.

(** X11 at work: [alice/alice.wav] with [alice/alice.txt] is listed. *)
Lemma list_voices_complete_witness :
  list_voices Scenario.VOICES_DIR Scenario.world
  = Response [mkVoiceEntry (lit "alice") [lit "alice"]]
  /\ exists e,
       In e [mkVoiceEntry (lit "alice") [lit "alice"]]
       /\ entry_voice_id e = lit "alice"
       /\ In (lit "alice") (entry_variations e).
Proof.
  split; [reflexivity|].
  eapply (list_voices_complete Scenario.VOICES_DIR Scenario.world
            [mkVoiceEntry (lit "alice") [lit "alice"]] _ _
            (lit "alice") (lit "alice") Scenario.alice (File Scenario.riff)).
  - reflexivity.
  - reflexivity.
  - left. reflexivity.
  - reflexivity.
  - left. reflexivity.
  - discriminate.
  - reflexivity.
Defined.

(** X12 at work: [VOICES_DIR] names the stray file. *)
Lemma list_voices_answers_witness :
  resolve (files Scenario.world) (Path (lit "data/voices/README"))
  = Some (File (Text (lit "One directory per voice.")))
  /\ list_voices (lit "data/voices/README") Scenario.world
     = Unhandled (lit "[Errno 20] Not a directory: 'data/voices/README'").
Proof.
  split; [reflexivity|].
  apply (proj2 (list_voices_answers (lit "data/voices/README") Scenario.world)
           (Text (lit "One directory per voice."))).
  reflexivity.
Defined.

(** X13 at work: the three entries of the storage root have three names;
    the catalog lists [alice] once. *)
Lemma list_voices_order_witness :
  map entry_voice_id [mkVoiceEntry (lit "alice") [lit "alice"]]
  = [lit "alice"]
  /\ NoDup (map entry_voice_id [mkVoiceEntry (lit "alice") [lit "alice"]]).
Proof.
  destruct (list_voices_order Scenario.VOICES_DIR Scenario.world
              [(lit "alice", Scenario.alice); (lit "empty", Dir []);
               (lit "README", File (Text (lit "One directory per voice.")))]
              [mkVoiceEntry (lit "alice") [lit "alice"]]
              eq_refl eq_refl) as [Q D].
  split; [exact Q|]. apply D.
  repeat constructor; simpl; intuition discriminate.
Defined.

(** X14 at work: the listed pair [alice]/[alice] passes the checks of
    [/generate]. *)
Lemma listed_pair_is_found_witness :
  tree_ok (root (files Scenario.world)) = true
  /\ list_voices Scenario.VOICES_DIR Scenario.world
     = Response [mkVoiceEntry (lit "alice") [lit "alice"]]
  /\ files_present Scenario.VOICES_DIR Scenario.hello Scenario.world = true.
Proof.
  split; [reflexivity|]. split; [reflexivity|].
  apply (listed_pair_is_found Scenario.VOICES_DIR Scenario.engine
           Scenario.world [mkVoiceEntry (lit "alice") [lit "alice"]]
           (mkVoiceEntry (lit "alice") [lit "alice"]) (lit "alice")
           Scenario.hello);
    try reflexivity.
  - left. reflexivity.
  - left. reflexivity.
  - discriminate.
Defined.

(** ** Replies with status 500 *)

(** A [try] block that raises, raises in one of its stages. *)
Lemma try_raises_inv (lib : Environment) (request : GenerateRequest)
    (variation : pystr) (p : PurePath) (t : pystr) (w w' : World)
    (m : pystr) :
  generate_speech_try lib request variation p t w = (Raises m, w') ->
  raised_in_try lib request p t w m.
Proof.
  intros H. destruct (try_stages lib request p t w) as [S|(m' & R)].
  - apply (try_returns _ _ variation) in S. destruct S as (r & w1 & S).
    congruence.
  - destruct (try_raises _ _ variation _ _ _ _ R) as (w1 & R').
    assert (m = m') by congruence. now subst.
Qed.

(** X18: an [HTTPException] with status 500 comes from nowhere but the
    [try] block: the guards were passed, the sidecar was read, one of the
    stages raised, and the detail is [Model inference error: ] followed
    by the message of that stage. *)
Theorem generate_speech_500_inv (VOICES_DIR : pystr) (lib : Environment)
    (request : GenerateRequest) (w w' : World) (d : pystr) :
  generate_speech VOICES_DIR lib request w = (HTTPException 500 d, w') ->
  files_present VOICES_DIR request w = true
  /\ blank (text request) = false
  /\ exists sidecar m,
       read_text (files w) (ref_text_path_of VOICES_DIR request)
       = Returns sidecar
       /\ raised_in_try lib request (ref_audio_path_of VOICES_DIR request)
            (strip sidecar) w m
       /\ d = lit "Model inference error: " ++ m.
Proof.
  unfold files_present. rewrite <- text_missing_blank.
  guards_cases VOICES_DIR lib request w; intros H; try discriminate.
  inversion H; subst. repeat split; auto.
  exists s, e. repeat split; auto.
  now apply try_raises_inv in G.
Qed.

(** X18 at work: inference runs out of memory. *)
Lemma generate_speech_500_inv_witness :
  generate_speech Scenario.VOICES_DIR Cases.engine_out_of_memory
    Scenario.hello Scenario.world
  = (HTTPException 500 (lit "Model inference error: CUDA out of memory."),
     snd (generate_speech Scenario.VOICES_DIR Cases.engine_out_of_memory
            Scenario.hello Scenario.world))
  /\ blank (text Scenario.hello) = false.
Proof.
  split; [reflexivity|].
  apply (generate_speech_500_inv Scenario.VOICES_DIR
           Cases.engine_out_of_memory Scenario.hello Scenario.world
           (snd (generate_speech Scenario.VOICES_DIR
                   Cases.engine_out_of_memory Scenario.hello Scenario.world))
           (lit "Model inference error: CUDA out of memory.")).
  reflexivity.
Defined.

(** X19: the handler lets an exception through (status 500 without the
    prefix of the [try] block) exactly when one of the three existence
    checks raises, those before it having returned [True] (a path the
    operating system refuses as too long), or the guards are passed and
    reading the sidecar raises (it is a directory, or its bytes are not
    UTF-8); the world is unchanged then, the library is not called. *)
Theorem generate_speech_unhandled_iff (VOICES_DIR : pystr)
    (lib : Environment) (request : GenerateRequest) (w w' : World)
    (m : pystr) :
  generate_speech VOICES_DIR lib request w = (Unhandled m, w')
  <-> (check_raises VOICES_DIR request w m
       \/ (files_present VOICES_DIR request w = true
           /\ blank (text request) = false
           /\ read_text (files w) (ref_text_path_of VOICES_DIR request)
              = Raises m))
      /\ w' = w.
Proof.
  unfold files_present, check_raises. rewrite <- text_missing_blank.
  guards_cases VOICES_DIR lib request w;
    (split;
     [ intros H; try discriminate H; inversion H; subst;
       (split; [|reflexivity]); intuition auto
     | intros [C ->]; intuition congruence ]).
Qed.

(** X19 at work: the sidecar of [alice] is a directory; and a voice_id
    of 300 letters. *)
Lemma generate_speech_unhandled_iff_witness :
  read_text (files Cases.sidecar_dir_world)
    (ref_text_path_of Scenario.VOICES_DIR Scenario.hello)
  = Raises (lit "[Errno 21] Is a directory: 'data/voices/alice/alice.txt'")
  /\ generate_speech Scenario.VOICES_DIR Scenario.engine Scenario.hello
       Cases.sidecar_dir_world
     = (Unhandled
          (lit "[Errno 21] Is a directory: 'data/voices/alice/alice.txt'"),
        Cases.sidecar_dir_world)
  /\ generate_speech Scenario.VOICES_DIR Scenario.engine
       (GenerateRequest_defaults Cases.long_name (lit "Hi")) Scenario.world
     = (Unhandled
          (name_too_long
             (voice_dir_of Scenario.VOICES_DIR
                (GenerateRequest_defaults Cases.long_name (lit "Hi")))),
        Scenario.world).
Proof.
  split; [reflexivity|]. split.
  - apply (proj2 (generate_speech_unhandled_iff Scenario.VOICES_DIR
                    Scenario.engine Scenario.hello Cases.sidecar_dir_world
                    Cases.sidecar_dir_world _)).
    split; [right; repeat split | reflexivity].
  - apply (proj2 (generate_speech_unhandled_iff Scenario.VOICES_DIR
                    Scenario.engine
                    (GenerateRequest_defaults Cases.long_name (lit "Hi"))
                    Scenario.world Scenario.world _)).
    split; [left; left; reflexivity | reflexivity].
Defined.

(** ** More on temporary files *)

(** X20: whenever a request passes the guards, its stages up to the
    creation of the temporary file return and the write raises, the
    request ends with status 500 and the message of the write, the
    temporary file just created is still in the store, and no [os.unlink]
    was called for it. *)
Theorem generate_speech_write_failure (VOICES_DIR : pystr)
    (lib : Environment) (request : GenerateRequest) (w : World)
    (sidecar : pystr) (s : Z) (a t : pystr) (wave : ndarray) (rate : Z)
    (spec : ndarray) (m : pystr) :
  files_present VOICES_DIR request w = true ->
  blank (text request) = false ->
  read_text (files w) (ref_text_path_of VOICES_DIR request) = Returns sidecar ->
  seed_used request w = Some s ->
  preprocess_ref_audio_text lib
    (str (ref_audio_path_of VOICES_DIR request)) (strip sidecar)
  = Returns (a, t) ->
  infer_process lib s a t (text request) (cross_fade_duration request)
    (nfe_step request) (speed request) = Returns (wave, rate, spec) ->
  NamedTemporaryFile_error lib = None ->
  sf_write lib wave rate = Raises m ->
  exists w',
    generate_speech VOICES_DIR lib request w
    = (HTTPException 500 (lit "Model inference error: " ++ m), w')
    /\ tmp_files w' = tmp_files w ++ [fresh_tmp (tmp_files w)]
    /\ existsb is_unlink (calls w') = existsb is_unlink (calls w).
Proof.
  intros F B R S P I T W.
  destruct (write_failure_leaks lib request (variation_of request)
              (ref_audio_path_of VOICES_DIR request) (strip sidecar) w
              s a t wave rate spec m S P I T W) as (w' & G & L & U).
  exists w'. split; [|auto].
  rewrite (generate_speech_past_guards VOICES_DIR lib request w sidecar F);
    auto; [|now rewrite text_missing_blank].
  now rewrite G.
Qed.

(** X20 at work: the full disk of the scenarios. *)
Lemma generate_speech_write_failure_witness :
  exists w',
    generate_speech Scenario.VOICES_DIR Scenario.engine_disk_full
      Scenario.hello Scenario.world
    = (HTTPException 500
         (lit "Model inference error: "
            ++ lit "Error opening file: System error."), w')
    /\ tmp_files w'
       = tmp_files Scenario.world ++ [fresh_tmp (tmp_files Scenario.world)].
Proof.
  destruct (generate_speech_write_failure Scenario.VOICES_DIR
              Scenario.engine_disk_full Scenario.hello Scenario.world
              (lit " Some call me nature. ") 852516353
              (lit "data/voices/alice/alice.wav")
              (lit "Some call me nature.")
              (852516353 :: map Z.of_N (lit "Hello")) 24000 []
              (lit "Error opening file: System error.")
              eq_refl eq_refl eq_refl eq_refl eq_refl eq_refl eq_refl eq_refl)
    as (w' & G & L & _).
  exists w'. split; [exact G | exact L].
Defined.

(** X21: two requests answered one after the other, the first file not
    yet deleted, get two different temporary files, and both are in the
    store afterwards. *)
Theorem generate_speech_twice (VOICES_DIR : pystr) (lib : Environment)
    (request1 request2 : GenerateRequest) (w w1 w2 : World)
    (r1 r2 : FileResponse) :
  generate_speech VOICES_DIR lib request1 w = (Response r1, w1) ->
  generate_speech VOICES_DIR lib request2 w1 = (Response r2, w2) ->
  path r1 <> path r2
  /\ tmp_files w2 = tmp_files w ++ [path r1; path r2].
Proof.
  intros G1 G2.
  apply generate_speech_response_inv in G1.
  destruct G1 as (_ & _ & s1 & _ & G1).
  apply try_response_shape in G1. destruct G1 as (P1 & _ & T1).
  apply generate_speech_response_inv in G2.
  destruct G2 as (_ & _ & s2 & _ & G2).
  apply try_response_shape in G2. destruct G2 as (P2 & _ & T2).
  split.
  - intros E. apply (fresh_tmp_new (tmp_files w1)).
    rewrite <- P2, <- E, T1. apply in_or_app. right. now left.
  - rewrite T2, T1, <- app_assoc. reflexivity.
Qed.

(** X21 at work: [Hello] asked twice. *)
Lemma generate_speech_twice_witness :
  tmp_files
    (snd (generate_speech Scenario.VOICES_DIR Scenario.engine Scenario.hello
            (snd (generate_speech Scenario.VOICES_DIR Scenario.engine
                    Scenario.hello Scenario.world))))
  = tmp_files Scenario.world ++ [1%N; 2%N].
Proof.
  apply (generate_speech_twice Scenario.VOICES_DIR Scenario.engine
           Scenario.hello Scenario.hello Scenario.world
           (snd (generate_speech Scenario.VOICES_DIR Scenario.engine
                   Scenario.hello Scenario.world))
           (snd (generate_speech Scenario.VOICES_DIR Scenario.engine
                   Scenario.hello
                   (snd (generate_speech Scenario.VOICES_DIR Scenario.engine
                           Scenario.hello Scenario.world))))
           (mkFileResponse 1%N (lit "audio/wav") (lit "alice_alice.wav")
              (Some (unlink_later 1%N)))
           (mkFileResponse 2%N (lit "audio/wav") (lit "alice_alice.wav")
              (Some (unlink_later 2%N))));
    reflexivity.
Defined.

(** ** What a request cannot influence *)

(** X22: [remove_silence] is read by nothing: whatever it is set to, the
    reply and the world after the request are the same. *)
Theorem generate_speech_ignores_remove_silence (VOICES_DIR : pystr)
    (lib : Environment) (request : GenerateRequest) (w : World)
    (b : option bool) :
  generate_speech VOICES_DIR lib (with_remove_silence b request) w
  = generate_speech VOICES_DIR lib request w.
Proof. reflexivity. Qed.

(** ** The audio file called [.wav] *)

(** X23: where the catalog and the generation part ways.  A voice
    directory with an entry called [.wav] and a [.wav.txt] beside it, but
    no [.wav.wav], is listed in every catalog [/voices] returns with the
    variation [.wav] (the stem of [.wav] is its whole name), and a request
    for that voice and variation is answered with 404, since it looks for
    [.wav.wav]. *)
Theorem bare_wav_listed_not_found (VOICES_DIR : pystr) (lib : Environment)
    (w : World) (es entries : list (pystr * node)) (n : pystr) (x y : node)
    (request : GenerateRequest) :
  resolve (files w) (Path VOICES_DIR) = Some (Dir es) ->
  In (n, x) es ->
  entry_name_ok n = true ->
  resolve (files w) (child (Path VOICES_DIR) n) = Some (Dir entries) ->
  In (lit ".wav", y) entries ->
  exists_ (files w)
    (joinpath (child (Path VOICES_DIR) n) (lit ".wav.txt")) = Returns true ->
  lookup (lit ".wav.wav") entries = None ->
  voice_id request = n ->
  variation request = Some (lit ".wav") ->
  (forall voices,
     list_voices VOICES_DIR w = Response voices ->
     exists e,
       In e voices
       /\ entry_voice_id e = n
       /\ In (lit ".wav") (entry_variations e))
  /\ generate_speech VOICES_DIR lib request w
     = (HTTPException 404
          (lit "Variation '.wav' not found for voice '" ++ n ++ lit "'"),
        w).
Proof.
  intros R Hn Nn Rd Hw Ht L Hid Hvar.
  set (d := child (Path VOICES_DIR) n) in *.
  pose proof (stem_wav d []) as St. cbn [app] in St.
  split.
  - intros voices Lv.
    rewrite (list_voices_of_dir _ _ _ R) in Lv.
    destruct (scan_voices (files w)
                (map (fun e => child (Path VOICES_DIR) (fst e)) es))
      as [voices'|m] eqn:S; [|discriminate].
    inversion Lv; subst voices'. clear Lv.
    assert (Hd : In d (map (fun e => child (Path VOICES_DIR) (fst e)) es))
      by (apply (in_map (fun e => child (Path VOICES_DIR) (fst e)) _
                   (n, x) Hn)).
    assert (Hdir : is_dir (files w) d = Returns true)
      by (apply is_dir_true; eauto).
    destruct (scan_voices_inner _ _ _ _ S Hd Hdir) as (vs & V).
    assert (Iv : In (lit ".wav") vs).
    { destruct (variations_in_eq _ _ _ V) as (wavs & G & ->).
      apply in_map_iff.
      exists (child d (lit ".wav")). split; [exact St|].
      apply filter_In. split.
      - unfold glob_suffix in G. apply resolve_found in Rd. rewrite Rd in G.
        inversion G.
        apply (in_map (fun e => child d (fst e)) _ (lit ".wav", y)).
        apply filter_In. split; [exact Hw | reflexivity].
      - unfold has_sidecar. rewrite St.
        change (lit ".wav" ++ lit ".txt") with (lit ".wav.txt").
        rewrite Ht. reflexivity. }
    exists (mkVoiceEntry (name d) vs).
    split; [|split; [apply name_child | exact Iv]].
    rewrite (scan_voices_eq _ _ _ S).
    replace vs with (listed_variations (files w) d)
      by (unfold listed_variations; now rewrite V).
    apply (in_map (fun d => mkVoiceEntry (name d)
                              (listed_variations (files w) d))).
    apply filter_In. split; [exact Hd|].
    unfold is_voice. rewrite Hdir, V. simpl.
    destruct vs; [destruct Iv | reflexivity].
  - assert (Dv : voice_dir_of VOICES_DIR request = d)
      by (unfold voice_dir_of; rewrite Hid; now apply joinpath_entry).
    assert (Vv : variation_of request = lit ".wav")
      by (unfold variation_of; now rewrite Hvar).
    assert (De : exists_ (files w) d = Returns true)
      by (apply exists_true; eauto).
    assert (Ae : exists_ (files w) (child d (lit ".wav.wav")) = Returns false).
    { rewrite (joinpath_entry d (lit ".wav.txt") eq_refl) in Ht.
      apply exists_true in Ht. destruct Ht as (t & Ht).
      apply resolve_found, stat_fits in Ht.
      destruct (sibling_fits d (lit ".wav.txt") (lit ".wav.wav")
                  eq_refl eq_refl eq_refl eq_refl Ht) as [Fe Fl].
      apply resolve_found in Rd.
      unfold exists_.
      rewrite (stat_child _ _ _ (lit ".wav.wav") Rd eq_refl
                 ltac:(vm_compute; discriminate) Fe Fl), L.
      reflexivity. }
    unfold generate_speech, ref_audio_path_of. rewrite Dv, Vv, Hid, De.
    change (lit ".wav" ++ lit ".wav") with (lit ".wav.wav").
    rewrite (joinpath_entry d (lit ".wav.wav") eq_refl), Ae.
    reflexivity.
Qed.

(** X23 at work: [carol], whose only audio file is called [.wav]. *)
Lemma bare_wav_listed_not_found_witness :
  list_voices Scenario.VOICES_DIR Cases.hidden_world
  = Response [mkVoiceEntry (lit "carol") [lit ".wav"]]
  /\ generate_speech Scenario.VOICES_DIR Scenario.engine Cases.carol
       Cases.hidden_world
     = (HTTPException 404
          (lit "Variation '.wav' not found for voice '" ++ lit "carol"
             ++ lit "'"),
        Cases.hidden_world).
Proof.
  split; [reflexivity|].
  eapply (proj2 (bare_wav_listed_not_found Scenario.VOICES_DIR
                   Scenario.engine Cases.hidden_world _ _ (lit "carol")
                   _ (File Scenario.riff) Cases.carol
                   eq_refl (or_introl eq_refl) eq_refl eq_refl
                   (or_introl eq_refl) eq_refl eq_refl eq_refl eq_refl)).
Defined.

(** ** Which reply when *)

(** X24: [/generate] answers 404 exactly when the existence check of the
    voice directory, of the reference audio or of the sidecar of the
    resolved variation returns [False], the checks before it having
    returned [True], whatever the text and the seed are. *)
Theorem generate_speech_404_iff (VOICES_DIR : pystr) (lib : Environment)
    (request : GenerateRequest) (w : World) :
  status_of (fst (generate_speech VOICES_DIR lib request w)) = 404
  <-> files_missing VOICES_DIR request w = true.
Proof.
  unfold files_missing.
  guards_cases VOICES_DIR lib request w;
    (split; intros H; first [reflexivity | discriminate H]).
Qed.

(** X24 at work: no [bob] in the storage. *)
Lemma generate_speech_404_iff_witness :
  files_missing Scenario.VOICES_DIR
    (GenerateRequest_defaults (lit "bob") (lit "Hi")) Scenario.world = true
  /\ status_of (fst (generate_speech Scenario.VOICES_DIR Scenario.engine
                       (GenerateRequest_defaults (lit "bob") (lit "Hi"))
                       Scenario.world)) = 404.
Proof.
  split; [reflexivity|].
  apply (proj2 (generate_speech_404_iff Scenario.VOICES_DIR Scenario.engine
                  (GenerateRequest_defaults (lit "bob") (lit "Hi"))
                  Scenario.world)).
  reflexivity.
Defined.

(** X25: [/generate] raises [HTTPException] with status 400 exactly when
    the three existence checks pass and the text is blank; the detail is
    then the one of the text guard and the world is unchanged. *)
Theorem generate_speech_400_iff (VOICES_DIR : pystr) (lib : Environment)
    (request : GenerateRequest) (w w' : World) (d : pystr) :
  generate_speech VOICES_DIR lib request w = (HTTPException 400 d, w')
  <-> files_present VOICES_DIR request w = true
      /\ blank (text request) = true
      /\ d = lit "Text parameter is required and cannot be empty"
      /\ w' = w.
Proof.
  unfold files_present. rewrite <- text_missing_blank.
  guards_cases VOICES_DIR lib request w; split;
    try (intros H; discriminate H);
    try (intros (F & _); discriminate F);
    try (intros (_ & F & _); discriminate F).
  - intros H. inversion H; subst. auto.
  - intros (_ & _ & -> & ->). reflexivity.
Qed.

(** X25 at work: the empty text for [alice]. *)
Lemma generate_speech_400_iff_witness :
  files_present Scenario.VOICES_DIR Scenario.no_text Scenario.world = true
  /\ blank (text Scenario.no_text) = true
  /\ generate_speech Scenario.VOICES_DIR Scenario.engine Scenario.no_text
       Scenario.world
     = (HTTPException 400
          (lit "Text parameter is required and cannot be empty"),
        Scenario.world).
Proof.
  split; [reflexivity|]. split; [reflexivity|].
  apply (proj2 (generate_speech_400_iff Scenario.VOICES_DIR Scenario.engine
                  Scenario.no_text Scenario.world Scenario.world
                  (lit "Text parameter is required and cannot be empty"))).
  repeat split.
Defined.

(** X26: [/generate] answers with a response (status 200) exactly when
    the three existence checks pass, the text is not blank, the sidecar
    is read and every stage of the [try] block returns; this for every
    request, with or without variation. *)
Theorem generate_speech_200_iff (VOICES_DIR : pystr) (lib : Environment)
    (request : GenerateRequest) (w : World) :
  (exists r w', generate_speech VOICES_DIR lib request w = (Response r, w'))
  <-> files_present VOICES_DIR request w = true
      /\ blank (text request) = false
      /\ exists sidecar,
           read_text (files w) (ref_text_path_of VOICES_DIR request)
           = Returns sidecar
           /\ stages_return lib request
                (ref_audio_path_of VOICES_DIR request) (strip sidecar) w.
Proof.
  split.
  - intros (r & w' & G). apply generate_speech_response_inv in G.
    destruct G as (F & T & s & R & G).
    rewrite text_missing_blank in T. repeat split; auto.
    exists s. split; auto.
    apply (try_returns_iff lib request (variation_of request)). eauto.
  - intros (F & B & s & R & S).
    apply (try_returns lib request (variation_of request)) in S.
    destruct S as (r & w' & S). exists r, w'.
    rewrite (generate_speech_past_guards VOICES_DIR lib request w s F);
      auto; [|now rewrite text_missing_blank].
    now rewrite S.
Qed.

(** X26 at work: [alice] in the variation [alice], named in the
    request. *)
Lemma generate_speech_200_iff_witness :
  files_present Scenario.VOICES_DIR (Cases.alice_as (lit "alice"))
    Scenario.world = true
  /\ exists r w',
       generate_speech Scenario.VOICES_DIR Scenario.engine
         (Cases.alice_as (lit "alice")) Scenario.world = (Response r, w').
Proof.
  split; [reflexivity|].
  apply (proj2 (generate_speech_200_iff Scenario.VOICES_DIR Scenario.engine
                  (Cases.alice_as (lit "alice")) Scenario.world)).
  split; [reflexivity|]. split; [reflexivity|].
  exists (lit " Some call me nature. "). split; [reflexivity|].
  unfold stages_return. do 6 eexists. repeat split; reflexivity.
Defined.
